(** * DataLoader: a shallow embedding of [data_loader.py]

    The module keeps three tables (bond details, cashflow schedules,
    company insights) on a [DataLoader] instance.  Each [load_*] method
    validates the required columns of the data frame it is given,
    normalises some of its columns in place and stores the frame; each
    [get_*] method filters the stored frame.

    Python objects are modelled by the type [pyobj]; data frames live in
    a heap of objects addressed by reference, because the loader stores
    the very object the caller passes in and normalises it in place. *)

From Stdlib Require Import ZArith List String Ascii Bool Lia.
From stdpp Require Import gmap strings list fin_maps.

Local Open Scope string_scope.

(** ** Characters and strings

    A Python [str] is modelled as a Rocq [string] whose characters are the
    code points U+0000..U+00FF. *)

Module Str.

Definition code (c : ascii) : N := N_of_ascii c.

(** [str.isspace] on the code points below 256. *)
Definition is_space (c : ascii) : bool :=
  let n := code c in
  ((9 <=? n) && (n <=? 13) || (28 <=? n) && (n <=? 32)
   || (n =? 133) || (n =? 160))%N.

Definition is_digit (c : ascii) : bool :=
  let n := code c in ((48 <=? n) && (n <=? 57))%N.

Definition digit_val (c : ascii) : Z := Z.of_N (code c) - 48.

(** The lower-case partner of a character, as used by case-insensitive
    matching: A-Z and the accented capitals U+00C0..U+00DE (but not the
    multiplication sign U+00D7) have one. *)
Definition lower (c : ascii) : ascii :=
  let n := code c in
  if ((65 <=? n) && (n <=? 90)
      || (192 <=? n) && (n <=? 222) && negb (n =? 215))%N
  then ascii_of_N (n + 32) else c.

Definition chars (s : string) : list ascii := list_ascii_of_string s.
Definition of_chars (l : list ascii) : string := string_of_list_ascii l.

Fixpoint lstrip_chars (l : list ascii) : list ascii :=
  match l with
  | c :: r => if is_space c then lstrip_chars r else l
  | [] => []
  end.

(** [s.strip()]: white space removed at both ends. *)
Definition strip (s : string) : string :=
  of_chars (rev (lstrip_chars (rev (lstrip_chars (chars s))))).

(** Truth value of a [str]: non-empty. *)
Definition truthy (s : string) : bool :=
  match s with EmptyString => false | String _ _ => true end.

(** [', '.join(l)] *)
Fixpoint join (sep : string) (l : list string) : string :=
  match l with
  | [] => ""
  | [x] => x
  | x :: r => x ++ sep ++ join sep r
  end.

Fixpoint prefix_ci (p l : list ascii) : bool :=
  match p, l with
  | [], _ => true
  | a :: p', b :: l' => Ascii.eqb (lower a) (lower b) && prefix_ci p' l'
  | _ :: _, [] => false
  end.

Fixpoint infix_ci (p l : list ascii) : bool :=
  prefix_ci p l ||
  match l with
  | [] => false
  | _ :: l' => infix_ci p l'
  end.

(** [needle] occurs in [hay] when letter case is ignored. *)
Definition contains_ci (needle hay : string) : bool :=
  infix_ci (chars needle) (chars hay).

(** Digits of a natural number, for [f"{len(df)}"]. *)
Fixpoint digits_fuel (fuel n : nat) (acc : list ascii) : list ascii :=
  match fuel with
  | O => acc
  | S fuel' =>
      let acc' := ascii_of_nat (48 + n mod 10) :: acc in
      if (n <? 10)%nat then acc' else digits_fuel fuel' (n / 10) acc'
  end.

Definition of_nat (n : nat) : string := of_chars (digits_fuel (S n) n []).

End Str.

(** ** Python objects *)

(** A [float]: the decimal numeral it was read from, standing for the
    nearest representable value; rounding is not modelled. *)
Inductive pyfloat :=
| Fnan
| Finf (negative : bool)
| Fdec (mantissa exponent : Z).

#[warnings="-register-all"] Inductive pyobj :=
| VNone
| VBool (b : bool)
| VInt (z : Z)
| VFloat (f : pyfloat)
| VStr (s : string)
| VList (l : list pyobj)
| VDict (d : list (string * pyobj))
| VTimestamp (year month day : Z)
| VNaT.

(** The empty dict [{}]. *)
Definition empty_dict : pyobj := VDict [].

(** [isinstance(x, str)] *)
Definition isinstance_str (x : pyobj) : bool :=
  match x with VStr _ => true | _ => false end.

(** [pd.isna] on a scalar. *)
Definition isna (x : pyobj) : bool :=
  match x with
  | VNone | VNaT | VFloat Fnan => true
  | _ => false
  end.

(** ** [json.loads]

    The decoder of Python's [json] module on the modelled alphabet: JSON
    white space is space, tab, line feed and carriage return; the literals
    [NaN], [Infinity] and [-Infinity] are accepted; a control character
    inside a string is an error; a repeated key keeps its first position
    and takes the last value.  An escape [\uXXXX] above U+00FF denotes a
    character outside the modelled alphabet and is not decoded.  [None]
    stands for [json.JSONDecodeError]. *)

Module Json.

Definition dquote : ascii := ascii_of_N 34.
Definition backslash : ascii := ascii_of_N 92.

Definition is_ws (c : ascii) : bool :=
  let n := Str.code c in ((n =? 32) || (n =? 9) || (n =? 10) || (n =? 13))%N.

Fixpoint skip_ws (l : list ascii) : list ascii :=
  match l with
  | c :: r => if is_ws c then skip_ws r else l
  | [] => []
  end.

Fixpoint strip_prefix (p l : list ascii) : option (list ascii) :=
  match p, l with
  | [], _ => Some l
  | a :: p', b :: l' => if Ascii.eqb a b then strip_prefix p' l' else None
  | _ :: _, [] => None
  end.

Definition hex_val (c : ascii) : option N :=
  let n := Str.code c in
  if ((48 <=? n) && (n <=? 57))%N then Some (n - 48)%N
  else if ((65 <=? n) && (n <=? 70))%N then Some (n - 55)%N
  else if ((97 <=? n) && (n <=? 102))%N then Some (n - 87)%N
  else None.

Definition hex4 (l : list ascii) : option (N * list ascii) :=
  match l with
  | a :: b :: c :: d :: r =>
      match hex_val a, hex_val b, hex_val c, hex_val d with
      | Some x, Some y, Some z, Some w =>
          Some (((x * 16 + y) * 16 + z) * 16 + w, r)%N
      | _, _, _, _ => None
      end
  | _ => None
  end.

Definition escape_char (c : ascii) : option ascii :=
  let n := Str.code c in
  if (n =? 34)%N then Some dquote
  else if (n =? 92)%N then Some backslash
  else if (n =? 47)%N then Some c
  else if (n =? 98)%N then Some (ascii_of_N 8)
  else if (n =? 102)%N then Some (ascii_of_N 12)
  else if (n =? 110)%N then Some (ascii_of_N 10)
  else if (n =? 114)%N then Some (ascii_of_N 13)
  else if (n =? 116)%N then Some (ascii_of_N 9)
  else None.

(** The body of a string literal, after the opening quote. *)
Fixpoint scanstring (l : list ascii) (acc : list ascii)
  : option (string * list ascii) :=
  match l with
  | [] => None
  | c :: r =>
      if Ascii.eqb c dquote then Some (Str.of_chars (rev acc), r)
      else if Ascii.eqb c backslash then
        match r with
        | [] => None
        | e :: r' =>
            if Ascii.eqb e "u" then
              match r' with
              | h1 :: h2 :: h3 :: h4 :: r'' =>
                  match hex4 [h1; h2; h3; h4] with
                  | Some (n, _) =>
                      if (n <? 256)%N
                      then scanstring r'' (ascii_of_N n :: acc)
                      else None
                  | None => None
                  end
              | _ => None
              end
            else
              match escape_char e with
              | Some x => scanstring r' (x :: acc)
              | None => None
              end
        end
      else if (Str.code c <? 32)%N then None
      else scanstring r (c :: acc)
  end.

Fixpoint span_digits (l : list ascii) : list ascii * list ascii :=
  match l with
  | c :: r =>
      if Str.is_digit c
      then let (ds, rest) := span_digits r in (c :: ds, rest)
      else ([], l)
  | [] => ([], [])
  end.

Definition digits_val (ds : list ascii) : Z :=
  fold_left (fun a c => a * 10 + Str.digit_val c)%Z ds 0%Z.

(** The fraction of a number (a dot and at least one digit), when there
    is one. *)
Definition match_frac (l : list ascii) : option (list ascii) * list ascii :=
  match l with
  | "."%char :: d :: r =>
      if Str.is_digit d
      then let (ds, rest) := span_digits (d :: r) in (Some ds, rest)
      else (None, l)
  | _ => (None, l)
  end.

Definition exp_digits (negative : bool) (l back : list ascii)
  : option Z * list ascii :=
  match span_digits l with
  | ([], _) => (None, back)
  | (ds, rest) =>
      (Some (if negative then - digits_val ds else digits_val ds)%Z, rest)
  end.

(** The exponent of a number (e or E, an optional sign and at least one
    digit), when there is one. *)
Definition match_exp (l : list ascii) : option Z * list ascii :=
  match l with
  | e :: r =>
      if Ascii.eqb e "e" || Ascii.eqb e "E" then
        match r with
        | "-"%char :: r' => exp_digits true r' l
        | "+"%char :: r' => exp_digits false r' l
        | _ => exp_digits false r l
        end
      else (None, l)
  | [] => (None, l)
  end.

(** A number: an optional minus sign, then 0 or a digit string without
    leading zero, then an optional fraction and an optional exponent.  It
    is an [int] without fraction and exponent, a [float] otherwise. *)
Definition match_number (l : list ascii) : option (pyobj * list ascii) :=
  let (negative, l1) :=
    match l with
    | "-"%char :: r => (true, r)
    | _ => (false, l)
    end in
  match l1 with
  | c :: r =>
      if Str.is_digit c then
        let (ip, r1) := if Ascii.eqb c "0" then ([c], r) else span_digits l1 in
        let (frac, r2) := match_frac r1 in
        let (ex, r3) := match_exp r2 in
        let sign := fun z : Z => if negative then (- z)%Z else z in
        match frac, ex with
        | None, None => Some (VInt (sign (digits_val ip)), r3)
        | _, _ =>
            let fd := match frac with Some ds => ds | None => [] end in
            let e := match ex with Some e => e | None => 0%Z end in
            Some (VFloat (Fdec (sign (digits_val (ip ++ fd)))
                               (e - Z.of_nat (length fd))), r3)
        end
      else None
  | [] => None
  end.

(** [d[k] = v] on a dict in insertion order. *)
Fixpoint dict_set (k : string) (v : pyobj) (d : list (string * pyobj))
  : list (string * pyobj) :=
  match d with
  | [] => [(k, v)]
  | (k', v') :: r =>
      if String.eqb k' k then (k', v) :: r else (k', v') :: dict_set k v r
  end.

Definition literal (word : string) (v : pyobj) (l : list ascii)
  : option (pyobj * list ascii) :=
  match strip_prefix (Str.chars word) l with
  | Some r => Some (v, r)
  | None => None
  end.

(** One JSON value at the head of [l]; [arr] and [obj] scan the items of
    an array and the members of an object. *)
Definition scan_step (arr obj : list ascii -> option (pyobj * list ascii))
  (l : list ascii) : option (pyobj * list ascii) :=
  match l with
  | [] => None
  | c :: r =>
      if Ascii.eqb c dquote then
        match scanstring r [] with
        | Some (s, r') => Some (VStr s, r')
        | None => None
        end
      else if Ascii.eqb c "{" then
        match skip_ws r with
        | "}"%char :: r' => Some (VDict [], r')
        | r' => obj r'
        end
      else if Ascii.eqb c "[" then
        match skip_ws r with
        | "]"%char :: r' => Some (VList [], r')
        | r' => arr r'
        end
      else if Ascii.eqb c "n" then literal "null" VNone l
      else if Ascii.eqb c "t" then literal "true" (VBool true) l
      else if Ascii.eqb c "f" then literal "false" (VBool false) l
      else
        match match_number l with
        | Some res => Some res
        | None =>
            if Ascii.eqb c "N" then literal "NaN" (VFloat Fnan) l
            else if Ascii.eqb c "I"
            then literal "Infinity" (VFloat (Finf false)) l
            else if Ascii.eqb c "-"
            then literal "-Infinity" (VFloat (Finf true)) l
            else None
        end
  end.

(** The items of an array from the head of [l] on: a value, then a comma
    and more items, or the closing bracket. *)
Definition array_step (scan : list ascii -> option (pyobj * list ascii))
  (arr : list ascii -> list pyobj -> option (pyobj * list ascii))
  (l : list ascii) (acc : list pyobj) : option (pyobj * list ascii) :=
  match scan l with
  | Some (v, r) =>
      match skip_ws r with
      | ","%char :: r' => arr (skip_ws r') (v :: acc)
      | "]"%char :: r' => Some (VList (rev (v :: acc)), r')
      | _ => None
      end
  | None => None
  end.

(** The members of an object from the head of [l] on: a key, a colon and
    a value, then a comma and more members, or the closing brace. *)
Definition object_step (scan : list ascii -> option (pyobj * list ascii))
  (obj : list ascii -> list (string * pyobj) -> option (pyobj * list ascii))
  (l : list ascii) (acc : list (string * pyobj))
  : option (pyobj * list ascii) :=
  match l with
  | q :: r =>
      if Ascii.eqb q dquote then
        match scanstring r [] with
        | Some (k, r1) =>
            match skip_ws r1 with
            | ":"%char :: r2 =>
                match scan (skip_ws r2) with
                | Some (v, r3) =>
                    match skip_ws r3 with
                    | ","%char :: r4 => obj (skip_ws r4) (dict_set k v acc)
                    | "}"%char :: r4 => Some (VDict (dict_set k v acc), r4)
                    | _ => None
                    end
                | None => None
                end
            | _ => None
            end
        | None => None
        end
      else None
  | [] => None
  end.

(** [scan_once] and its two loops.  The fuel bounds the number of nested
    calls; [json_loads] supplies enough of it for every text. *)
Fixpoint scan_once (fuel : nat) (l : list ascii) {struct fuel}
  : option (pyobj * list ascii) :=
  match fuel with
  | O => None
  | S n =>
      scan_step (fun l' => array_items n l' [])
                (fun l' => object_items n l' []) l
  end
with array_items (fuel : nat) (l : list ascii) (acc : list pyobj)
  {struct fuel} : option (pyobj * list ascii) :=
  match fuel with
  | O => None
  | S n => array_step (scan_once n) (array_items n) l acc
  end
with object_items (fuel : nat) (l : list ascii) (acc : list (string * pyobj))
  {struct fuel} : option (pyobj * list ascii) :=
  match fuel with
  | O => None
  | S n => object_step (scan_once n) (object_items n) l acc
  end.

(** [json.loads(s)]: one value between optional white space, and nothing
    after it. *)
Definition json_loads (s : string) : option pyobj :=
  let l := Str.chars s in
  match scan_once (2 * length l + 2) (skip_ws l) with
  | Some (v, r) =>
      match skip_ws r with
      | [] => Some v
      | _ :: _ => None
      end
  | None => None
  end.

(** Test texts are written with an apostrophe for the double quote. *)
Definition q (s : string) : string :=
  Str.of_chars
    (map (fun c => if Ascii.eqb c "'" then dquote else c) (Str.chars s)).

End Json.

(** ** [pd.to_datetime(..., format='%d-%m-%Y', errors='coerce')]

    The format is matched against the whole text as [strptime] does: the
    day is one or two digits (01..31, 1..9, or a space and 1..9), the month
    one or two digits (01..12, 1..9), the year exactly four digits, with a
    hyphen between them; the three numbers must form a calendar date.  A
    timestamp is modelled as its calendar date (the time of day is zero).
    Every date of the years 0001..9999 has a timestamp; the narrower range
    of timestamps of nanosecond resolution (1677-09-22 to 2262-04-11,
    outside of which a version of pandas that parses to that resolution
    coerces a date to [NaT] too) is not modelled. *)

Module Datetime.

Definition is_leap (y : Z) : bool :=
  ((y mod 4 =? 0) && (negb (y mod 100 =? 0) || (y mod 400 =? 0)))%Z.

Definition days_in_month (y m : Z) : Z :=
  if (m =? 2)%Z then (if is_leap y then 29 else 28)%Z
  else if ((m =? 4) || (m =? 6) || (m =? 9) || (m =? 11))%Z then 30%Z
  else 31%Z.

(** What [datetime(y, m, d)] accepts. *)
Definition valid_date (y m d : Z) : bool :=
  ((1 <=? y) && (y <=? 9999) && (1 <=? m) && (m <=? 12)
   && (1 <=? d) && (d <=? days_in_month y m))%Z.

Fixpoint split_dash (l : list ascii) : list (list ascii) :=
  match l with
  | [] => [[]]
  | c :: r =>
      if Ascii.eqb c "-" then [] :: split_dash r
      else match split_dash r with
           | p :: ps => (c :: p) :: ps
           | [] => [[c]]
           end
  end.

(** [%d] *)
Definition parse_day (l : list ascii) : option Z :=
  match l with
  | [a] =>
      if Str.is_digit a && negb (Ascii.eqb a "0")
      then Some (Str.digit_val a) else None
  | [a; b] =>
      if Str.is_digit b then
        if Ascii.eqb a "3" then
          (if Ascii.eqb b "0" || Ascii.eqb b "1"
           then Some (30 + Str.digit_val b)%Z else None)
        else if Ascii.eqb a "1" || Ascii.eqb a "2"
        then Some (10 * Str.digit_val a + Str.digit_val b)%Z
        else if Ascii.eqb a "0" || Ascii.eqb a " "
        then (if Ascii.eqb b "0" then None else Some (Str.digit_val b))
        else None
      else None
  | _ => None
  end.

(** [%m] *)
Definition parse_month (l : list ascii) : option Z :=
  match l with
  | [a] =>
      if Str.is_digit a && negb (Ascii.eqb a "0")
      then Some (Str.digit_val a) else None
  | [a; b] =>
      if Str.is_digit b then
        if Ascii.eqb a "1" then
          (if Ascii.eqb b "0" || Ascii.eqb b "1" || Ascii.eqb b "2"
           then Some (10 + Str.digit_val b)%Z else None)
        else if Ascii.eqb a "0"
        then (if Ascii.eqb b "0" then None else Some (Str.digit_val b))
        else None
      else None
  | _ => None
  end.

(** [%Y] *)
Definition parse_year (l : list ascii) : option Z :=
  match l with
  | [a; b; c; d] =>
      if Str.is_digit a && Str.is_digit b && Str.is_digit c && Str.is_digit d
      then Some (1000 * Str.digit_val a + 100 * Str.digit_val b
                 + 10 * Str.digit_val c + Str.digit_val d)%Z
      else None
  | _ => None
  end.

(** The date a text denotes under the format [%d-%m-%Y], if any. *)
Definition strptime_dmy (s : string) : option (Z * Z * Z) :=
  match split_dash (Str.chars s) with
  | [dd; mm; yy] =>
      match parse_day dd, parse_month mm, parse_year yy with
      | Some d, Some m, Some y =>
          if valid_date y m d then Some (y, m, d) else None
      | _, _, _ => None
      end
  | _ => None
  end.

(** One element under [errors='coerce']: a text that denotes a date
    becomes that timestamp, a timestamp stays, everything else is [NaT]. *)
Definition to_datetime_scalar (x : pyobj) : pyobj :=
  match x with
  | VStr s =>
      match strptime_dmy s with
      | Some (y, m, d) => VTimestamp y m d
      | None => VNaT
      end
  | VTimestamp _ _ _ => x
  | _ => VNaT
  end.

Definition to_datetime (ser : list pyobj) : list pyobj :=
  map to_datetime_scalar ser.

Definition digit_char (k : Z) : ascii := ascii_of_N (Z.to_N (48 + k)).

(** [date.strftime('%d-%m-%Y')]: zero-padded day, month and year. *)
Definition strftime_dmy (y m d : Z) : string :=
  Str.of_chars
    [digit_char (d / 10); digit_char (d mod 10); "-"%char;
     digit_char (m / 10); digit_char (m mod 10); "-"%char;
     digit_char (y / 1000); digit_char (y / 100 mod 10);
     digit_char (y / 10 mod 10); digit_char (y mod 10)].

End Datetime.

(** ** [pd.to_numeric(..., errors='coerce')]

    A number stays; a text is read as a decimal numeral (white space
    around it, a sign, digits with an optional fraction, an optional
    exponent) or as a signed [inf]/[infinity]; everything else becomes
    [NaN].  A numeral without fraction and exponent is an integer, any
    other a float.  The common dtype of the resulting column is not
    modelled, the values are. *)

Module Numeric.

Definition is_space_ascii (c : ascii) : bool :=
  let n := Str.code c in ((n =? 32) || (9 <=? n) && (n <=? 13))%N.

Fixpoint lskip (l : list ascii) : list ascii :=
  match l with
  | c :: r => if is_space_ascii c then lskip r else l
  | [] => []
  end.

Definition trim (l : list ascii) : list ascii :=
  rev (lskip (rev (lskip l))).

Definition is_word (w : string) (l : list ascii) : bool :=
  bool_decide (map Str.lower (Str.chars w) = map Str.lower l).

(** The exponent part after the mantissa: empty, or e/E, an optional sign
    and at least one digit, up to the end of the text. *)
Definition parse_exp (l : list ascii) : option (option Z) :=
  match l with
  | [] => Some None
  | e :: r =>
      if Ascii.eqb e "e" || Ascii.eqb e "E" then
        let (negative, ds) :=
          match r with
          | "-"%char :: r' => (true, r')
          | "+"%char :: r' => (false, r')
          | _ => (false, r)
          end in
        match Json.span_digits ds with
        | ((_ :: _) as ex, []) =>
            Some (Some (if negative then - Json.digits_val ex
                        else Json.digits_val ex)%Z)
        | _ => None
        end
      else None
  end.

(** An unsigned numeral: digits, an optional dot and digits, with at least
    one digit in all, then the exponent part. *)
Definition parse_unsigned (negative : bool) (l : list ascii) : option pyobj :=
  let sign := fun z : Z => if negative then (- z)%Z else z in
  let (ip, r1) := Json.span_digits l in
  let '(dot, fd, r2) :=
    match r1 with
    | "."%char :: r => let (fd, r') := Json.span_digits r in (true, fd, r')
    | _ => (false, [], r1)
    end in
  match (ip ++ fd)%list with
  | [] => None
  | _ :: _ =>
      match parse_exp r2 with
      | None => None
      | Some ex =>
          match dot, ex with
          | false, None => Some (VInt (sign (Json.digits_val ip)))
          | _, _ =>
              let e := match ex with Some e => e | None => 0%Z end in
              Some (VFloat (Fdec (sign (Json.digits_val (ip ++ fd)))
                                 (e - Z.of_nat (length fd))))
          end
      end
  end.

Definition parse_number (s : string) : option pyobj :=
  let (negative, l) :=
    match trim (Str.chars s) with
    | "-"%char :: r => (true, r)
    | "+"%char :: r => (false, r)
    | l => (false, l)
    end in
  if is_word "inf" l || is_word "infinity" l
  then Some (VFloat (Finf negative))
  else parse_unsigned negative l.

Definition to_numeric_scalar (x : pyobj) : pyobj :=
  match x with
  | VInt _ | VFloat _ | VBool _ => x
  | VStr s =>
      match parse_number s with
      | Some v => v
      | None => VFloat Fnan
      end
  | _ => VFloat Fnan
  end.

Definition to_numeric (ser : list pyobj) : list pyobj :=
  map to_numeric_scalar ser.

End Numeric.

(** ** Data frames

    A [pd.DataFrame]: an index of [df_index] rows and named columns, each
    a series of Python objects. *)

Definition Series := list pyobj.

Record DataFrame := {
  df_index : nat;
  df_data : list (string * Series)
}.

Definition row := list (string * pyobj).

Module DF.

(** [df.columns] *)
Definition columns (df : DataFrame) : list string := map fst (df_data df).

(** [col in cols] *)
Definition elem (col : string) (cols : list string) : bool :=
  existsb (String.eqb col) cols.

Fixpoint lookup_col (col : string) (data : list (string * Series))
  : option Series :=
  match data with
  | [] => None
  | (c, ser) :: rest => if String.eqb c col then Some ser else lookup_col col rest
  end.

(** [df[col]], [None] for a [KeyError]. *)
Definition getitem (col : string) (df : DataFrame) : option Series :=
  lookup_col col (df_data df).

Fixpoint replace_col (col : string) (ser : Series)
  (data : list (string * Series)) : list (string * Series) :=
  match data with
  | [] => [(col, ser)]
  | (c, old) :: rest =>
      if String.eqb c col then (c, ser) :: rest
      else (c, old) :: replace_col col ser rest
  end.

(** [df[col] = ser]: the column is replaced where it stands, or added
    after the last one. *)
Definition setitem (col : string) (ser : Series) (df : DataFrame) : DataFrame :=
  {| df_index := df_index df; df_data := replace_col col ser (df_data df) |}.

(** [len(df)] *)
Definition len (df : DataFrame) : nat := df_index df.

Fixpoint mask_filter {A : Type} (mask : list bool) (l : list A) : list A :=
  match mask, l with
  | b :: m, x :: r => if b then x :: mask_filter m r else mask_filter m r
  | _, _ => []
  end.

Definition count_true (mask : list bool) : nat :=
  length (List.filter (fun b : bool => b) mask).

(** [df[mask]] for a boolean series [mask]: a new frame with the rows at
    which the mask holds. *)
Definition filter_rows (mask : list bool) (df : DataFrame) : DataFrame :=
  {| df_index := count_true mask;
     df_data := map (fun cs : string * Series =>
                       (fst cs, mask_filter mask (snd cs))) (df_data df) |}.

Definition heads (data : list (string * Series)) : row :=
  map (fun cs : string * Series => (fst cs, hd VNone (snd cs))) data.

Definition tails (data : list (string * Series)) : list (string * Series) :=
  map (fun cs : string * Series => (fst cs, tl (snd cs))) data.

Fixpoint rows_of (n : nat) (data : list (string * Series)) : list row :=
  match n with
  | O => []
  | S n' => heads data :: rows_of n' (tails data)
  end.

(** The rows of a frame, each with a value for every column. *)
Definition rows (df : DataFrame) : list row := rows_of (df_index df) (df_data df).

Fixpoint row_get (col : string) (r : row) : option pyobj :=
  match r with
  | [] => None
  | (c, v) :: rest => if String.eqb c col then Some v else row_get col rest
  end.

(** Every frame pandas builds has distinct column labels here, and each
    column has one value per row. *)
Definition wf (df : DataFrame) : Prop :=
  List.NoDup (columns df)
  /\ Forall (fun cs : string * Series => length (snd cs) = df_index df)
            (df_data df).

End DF.

(** ** The loader and its world *)

Inductive exn :=
| ValueError (msg : string)
| JSONDecodeError
| AttributeError
| KeyError (key : string)
| ReError.

(** A log record: [logger.info(msg)], or [logger.error(prefix + str(e))]. *)
Inductive log_record :=
| LogInfo (msg : string)
| LogError (prefix : string) (e : exn).

(** The attributes of a [DataLoader] instance: each table is [None] or a
    reference to a data frame. *)
Record DataLoader := {
  bond_details : option nat;
  cashflow_details : option nat;
  company_insights : option nat
}.

(** The heap of data frames, the loader and the records logged so far. *)
Record World := {
  heap : gmap nat DataFrame;
  self : DataLoader;
  logged : list log_record
}.

(** [DataLoader()] *)
Definition init : DataLoader :=
  {| bond_details := None; cashflow_details := None; company_insights := None |}.

Inductive outcome (A : Type) :=
| Return (a : A)
| Raise (e : exn).
Arguments Return {A} a.
Arguments Raise {A} e.

(** A method: it runs in a world, may change it and returns or raises. *)
Definition M (A : Type) : Type := World -> World * outcome A.

Definition ret {A : Type} (a : A) : M A := fun w => (w, Return a).

Definition raise {A : Type} (e : exn) : M A := fun w => (w, Raise e).

Definition bind {A B : Type} (m : M A) (k : A -> M B) : M B :=
  fun w =>
    match m w with
    | (w', Return a) => k a w'
    | (w', Raise e) => (w', Raise e)
    end.

Notation "'let*' x ':=' m 'in' k" := (bind m (fun x => k))
  (at level 10, x name, m at level 100, k at level 200).

(** [try: body / except Exception as e: handler(e); raise] *)
Definition try_reraise {A : Type} (body : M A) (handler : exn -> M unit) : M A :=
  fun w =>
    match body w with
    | (w', Return a) => (w', Return a)
    | (w', Raise e) =>
        match handler e w' with
        | (w'', Return _) => (w'', Raise e)
        | (w'', Raise e') => (w'', Raise e')
        end
    end.

Fixpoint for_each {A : Type} (l : list A) (body : A -> M unit) : M unit :=
  match l with
  | [] => ret tt
  | x :: rest => let* _ := body x in for_each rest body
  end.

Definition lift {A : Type} (o : outcome A) : M A := fun w => (w, o).

Definition logger_info (msg : string) : M unit :=
  fun w =>
    ({| heap := heap w; self := self w;
        logged := (logged w ++ [LogInfo msg])%list |}, Return tt).

Definition logger_error (prefix : string) (e : exn) : M unit :=
  fun w =>
    ({| heap := heap w; self := self w;
        logged := (logged w ++ [LogError prefix e])%list |}, Return tt).

Definition get_self : M DataLoader := fun w => (w, Return (self w)).

Definition set_self (s : DataLoader) : M unit :=
  fun w => ({| heap := heap w; self := s; logged := logged w |}, Return tt).

(** The frame behind a reference; an argument that is no data frame has
    none of the attributes used on it. *)
Definition deref (df : nat) : M DataFrame :=
  fun w =>
    match heap w !! df with
    | Some d => (w, Return d)
    | None => (w, Raise AttributeError)
    end.

Definition df_columns (df : nat) : M (list string) :=
  let* d := deref df in ret (DF.columns d).

Definition df_len (df : nat) : M nat :=
  let* d := deref df in ret (DF.len d).

Definition df_getitem (df : nat) (col : string) : M Series :=
  let* d := deref df in
  match DF.getitem col d with
  | Some ser => ret ser
  | None => raise (KeyError col)
  end.

(** [df[col] = ser] changes the object [df] refers to. *)
Definition df_setitem (df : nat) (col : string) (ser : Series) : M unit :=
  let* d := deref df in
  fun w =>
    ({| heap := <[df := DF.setitem col ser d]> (heap w); self := self w;
        logged := logged w |}, Return tt).

(** [ser.apply(f)]: the new series, or the first exception [f] raises. *)
Fixpoint series_apply (f : pyobj -> outcome pyobj) (ser : Series)
  : outcome Series :=
  match ser with
  | [] => Return []
  | x :: rest =>
      match f x with
      | Raise e => Raise e
      | Return y =>
          match series_apply f rest with
          | Raise e => Raise e
          | Return ys => Return (y :: ys)
          end
      end
  end.

(** ** Loading *)

(** The validation shared by the three [load_*] methods:
    [missing_cols = [col for col in required_columns if col not in df.columns]]
    and the [ValueError] raised when it is not empty. *)
Definition missing_cols (required_columns cols : list string) : list string :=
  List.filter (fun col => negb (DF.elem col cols)) required_columns.

Definition missing_message (missing : list string) : string :=
  "Missing required columns: " ++ Str.join ", " missing.

Definition validate_required (required_columns : list string) (df : nat)
  : M unit :=
  let* cols := df_columns df in
  match missing_cols required_columns cols with
  | [] => ret tt
  | missing => raise (ValueError (missing_message missing))
  end.

(** [lambda x: json.loads(x) if isinstance(x, str) and x.strip() else {}] *)
Definition json_or_empty (x : pyobj) : outcome pyobj :=
  match x with
  | VStr s =>
      if Str.truthy (Str.strip s) then
        match Json.json_loads s with
        | Some v => Return v
        | None => Raise JSONDecodeError
        end
      else Return empty_dict
  | _ => Return empty_dict
  end.

(** [for col in cols: if col in df.columns: df[col] = f(df[col])] *)
Definition convert_columns (cols : list string)
  (f : Series -> outcome Series) (df : nat) : M unit :=
  for_each cols (fun col =>
    let* present := df_columns df in
    if DF.elem col present then
      let* ser := df_getitem df col in
      let* ser' := lift (f ser) in
      df_setitem df col ser'
    else ret tt).

Definition bond_required_columns : list string :=
  ["isin"; "company_name"; "issue_size"; "allotment_date"; "maturity_date";
   "issuer_details"; "instrument_details"; "coupon_details"].

Definition bond_json_columns : list string :=
  ["issuer_details"; "instrument_details"; "coupon_details";
   "redemption_details"; "credit_rating_details"; "listing_details"].

Definition cashflow_required_columns : list string :=
  ["isin"; "cash_flow_date"; "cash_flow_amount"].

Definition date_columns : list string := ["cash_flow_date"; "record_date"].

Definition numeric_columns : list string :=
  ["cash_flow_amount"; "principal_amount"; "interest_amount"; "tds_amount";
   "remaining_principal"].

Definition company_required_columns : list string :=
  ["company_name"; "company_industry"].

Definition company_json_columns : list string :=
  ["key_metrics"; "income_statement"; "balance_sheet"; "cashflow";
   "lenders_profile"].

Definition set_bond_details (df : nat) : M unit :=
  let* s := get_self in
  set_self {| bond_details := Some df;
              cashflow_details := cashflow_details s;
              company_insights := company_insights s |}.

Definition set_cashflow_details (df : nat) : M unit :=
  let* s := get_self in
  set_self {| bond_details := bond_details s;
              cashflow_details := Some df;
              company_insights := company_insights s |}.

Definition set_company_insights (df : nat) : M unit :=
  let* s := get_self in
  set_self {| bond_details := bond_details s;
              cashflow_details := cashflow_details s;
              company_insights := Some df |}.

Definition log_loaded (df : nat) (what : string) : M unit :=
  let* n := df_len df in
  logger_info ("Loaded " ++ Str.of_nat n ++ " " ++ what ++ " records").

Definition load_bond_data (df : nat) : M unit :=
  try_reraise
    (let* _ := validate_required bond_required_columns df in
     let* _ := convert_columns bond_json_columns
                 (series_apply json_or_empty) df in
     let* _ := set_bond_details df in
     log_loaded df "bond")
    (logger_error "Error loading bond data: ").

Definition load_cashflow_data (df : nat) : M unit :=
  try_reraise
    (let* _ := validate_required cashflow_required_columns df in
     let* _ := convert_columns date_columns
                 (fun ser => Return (Datetime.to_datetime ser)) df in
     let* _ := convert_columns numeric_columns
                 (fun ser => Return (Numeric.to_numeric ser)) df in
     let* _ := set_cashflow_details df in
     log_loaded df "cashflow")
    (logger_error "Error loading cashflow data: ").

Definition load_company_data (df : nat) : M unit :=
  try_reraise
    (let* _ := validate_required company_required_columns df in
     let* _ := convert_columns company_json_columns
                 (series_apply json_or_empty) df in
     let* _ := set_company_insights df in
     log_loaded df "company")
    (logger_error "Error loading company data: ").

(** ** Retrieval *)

(** What a [get_*] method returns: the stored frame itself, or a new frame
    made by filtering it. *)
Inductive retrieved :=
| Stored (df : nat)
| Filtered (d : DataFrame).

(** One element of [series == text]. *)
Definition eq_str (text : string) (x : pyobj) : bool :=
  match x with
  | VStr s => String.eqb s text
  | _ => false
  end.

(** [df[df['isin'] == isin]], reached when [isin] is true, that is neither
    [None] nor the empty text. *)
Definition filter_isin (df : nat) (isin : string) : M retrieved :=
  let* ser := df_getitem df "isin" in
  let* d := deref df in
  ret (Filtered (DF.filter_rows (map (eq_str isin) ser) d)).

Definition get_bond_details (isin : option string) : M retrieved :=
  let* s := get_self in
  match bond_details s with
  | None => raise (ValueError "Bond data not loaded")
  | Some df =>
      match isin with
      | Some text =>
          if Str.truthy text then filter_isin df text else ret (Stored df)
      | None => ret (Stored df)
      end
  end.

Definition get_cashflow_details (isin : option string) : M retrieved :=
  let* s := get_self in
  match cashflow_details s with
  | None => raise (ValueError "Cashflow data not loaded")
  | Some df =>
      match isin with
      | Some text =>
          if Str.truthy text then filter_isin df text else ret (Stored df)
      | None => ret (Stored df)
      end
  end.

Section Contains.

(** Python's [re] module: [re_compile_ci pat] is
    [re.compile(pat, flags=re.IGNORECASE)], [None] when the pattern is
    rejected with [re.error], and otherwise the test
    [lambda x: regex.search(x) is not None]. *)
Variable re_compile_ci : string -> option (string -> bool).

(** [ser.str.contains(pat, case=False, na=False)]: [pat] is a regular
    expression ([regex=True] is the default); an element that is missing
    or is not a [str] gives [False].  The series is one of Python objects
    (pandas' object dtype), on which the [.str] accessor exists. *)
Definition str_contains (pat : string) (ser : Series) : outcome (list bool) :=
  match re_compile_ci pat with
  | None => Raise ReError
  | Some found =>
      Return (map (fun x => match x with
                            | VStr s => found s
                            | _ => false
                            end) ser)
  end.

Definition get_company_insights (company_name : option string) : M retrieved :=
  let* s := get_self in
  match company_insights s with
  | None => raise (ValueError "Company data not loaded")
  | Some df =>
      match company_name with
      | Some pat =>
          if Str.truthy pat then
            let* ser := df_getitem df "company_name" in
            let* mask := lift (str_contains pat ser) in
            let* d := deref df in
            ret (Filtered (DF.filter_rows mask d))
          else ret (Stored df)
      | None => ret (Stored df)
      end
  end.

End Contains.

(** ** Vocabulary of the statements *)

(** The three tables. *)
Inductive kind := Bond | Cashflow | Company.

#[global] Instance kind_eq_dec : EqDecision kind.
Proof. solve_decision. Defined.

Definition load_data (k : kind) : nat -> M unit :=
  match k with
  | Bond => load_bond_data
  | Cashflow => load_cashflow_data
  | Company => load_company_data
  end.

Definition required_columns (k : kind) : list string :=
  match k with
  | Bond => bond_required_columns
  | Cashflow => cashflow_required_columns
  | Company => company_required_columns
  end.

Definition error_prefix (k : kind) : string :=
  match k with
  | Bond => "Error loading bond data: "
  | Cashflow => "Error loading cashflow data: "
  | Company => "Error loading company data: "
  end.

(** The attribute of the loader that holds the table of a kind. *)
Definition stored (k : kind) (s : DataLoader) : option nat :=
  match k with
  | Bond => bond_details s
  | Cashflow => cashflow_details s
  | Company => company_insights s
  end.

(** The stored table of a kind: the frame the attribute refers to, as it
    is now. *)
Definition stored_table (k : kind) (w : World) : option DataFrame :=
  match stored k (self w) with
  | Some df => heap w !! df
  | None => None
  end.

Definition not_loaded (k : kind) : exn :=
  match k with
  | Bond => ValueError "Bond data not loaded"
  | Cashflow => ValueError "Cashflow data not loaded"
  | Company => ValueError "Company data not loaded"
  end.

Definition get_data (re_compile_ci : string -> option (string -> bool))
  (k : kind) : option string -> M retrieved :=
  match k with
  | Bond => get_bond_details
  | Cashflow => get_cashflow_details
  | Company => get_company_insights re_compile_ci
  end.

(** The frame a retrieval result stands for. *)
Definition retrieved_frame (w : World) (r : retrieved) : option DataFrame :=
  match r with
  | Stored df => heap w !! df
  | Filtered d => Some d
  end.

(** The loop of [convert_columns] on the frame alone: the frame it leaves
    behind, and how it ends. *)
Fixpoint convert_frame (cols : list string) (f : Series -> outcome Series)
  (d : DataFrame) : DataFrame * outcome unit :=
  match cols with
  | [] => (d, Return tt)
  | col :: rest =>
      if DF.elem col (DF.columns d) then
        match DF.getitem col d with
        | None => (d, Raise (KeyError col))
        | Some ser =>
            match f ser with
            | Raise e => (d, Raise e)
            | Return ser' => convert_frame rest f (DF.setitem col ser' d)
            end
        end
      else convert_frame rest f d
  end.

(** A frame in which every column named in [cols] has been converted by
    [f] (a column on which [f] raises is kept), all other columns and the
    index being as in [d]. *)
Definition converted (cols : list string) (f : Series -> outcome Series)
  (d : DataFrame) : DataFrame :=
  {| df_index := df_index d;
     df_data :=
       map (fun cs : string * Series =>
              if DF.elem (fst cs) cols then
                (fst cs, match f (snd cs) with
                         | Return ser => ser
                         | Raise _ => snd cs
                         end)
              else cs) (df_data d) |}.

(** [f] returns on every column of [d] named in [cols]. *)
Definition convertible (cols : list string) (f : Series -> outcome Series)
  (d : DataFrame) : Prop :=
  forall col ser, In col cols -> DF.getitem col d = Some ser ->
                  exists ser', f ser = Return ser'.

Definition parse_json : Series -> outcome Series := series_apply json_or_empty.
Definition parse_dates : Series -> outcome Series :=
  fun ser => Return (Datetime.to_datetime ser).
Definition parse_numbers : Series -> outcome Series :=
  fun ser => Return (Numeric.to_numeric ser).

(** The normalised form of an input frame of each kind. *)
Definition normalized (k : kind) (d : DataFrame) : DataFrame :=
  match k with
  | Bond => converted bond_json_columns parse_json d
  | Cashflow =>
      converted numeric_columns parse_numbers
        (converted date_columns parse_dates d)
  | Company => converted company_json_columns parse_json d
  end.

(** The structured-text columns of each kind. *)
Definition json_columns (k : kind) : list string :=
  match k with
  | Bond => bond_json_columns
  | Cashflow => []
  | Company => company_json_columns
  end.

Definition with_heap (h : gmap nat DataFrame) (w : World) : World :=
  {| heap := h; self := self w; logged := logged w |}.

Definition with_stored (k : kind) (df : nat) (s : DataLoader) : DataLoader :=
  match k with
  | Bond => {| bond_details := Some df;
               cashflow_details := cashflow_details s;
               company_insights := company_insights s |}
  | Cashflow => {| bond_details := bond_details s;
                   cashflow_details := Some df;
                   company_insights := company_insights s |}
  | Company => {| bond_details := bond_details s;
                  cashflow_details := cashflow_details s;
                  company_insights := Some df |}
  end.

(** The row filter of [get_bond_details] and [get_cashflow_details]: the
    row's [isin] is the text [isin]. *)
Definition isin_is (isin : string) (r : row) : bool :=
  match DF.row_get "isin" r with
  | Some x => eq_str isin x
  | None => false
  end.

(** The row filter the specification gives [get_company_insights]: the
    row's [company_name] is a text that contains [name], letter case
    ignored. *)
Definition name_contains (name : string) (r : row) : bool :=
  match DF.row_get "company_name" r with
  | Some (VStr s) => Str.contains_ci name s
  | _ => false
  end.

(** The characters with a special meaning in a regular expression. *)
Definition is_meta (c : ascii) : bool :=
  existsb (Ascii.eqb c) (Str.chars ".^$*+?{}[]\|()").

Definition plain_pattern (pat : string) : bool :=
  forallb (fun c => negb (is_meta c)) (Str.chars pat).

(** A regular expression without special characters matches its own text:
    with [re.IGNORECASE] it is found in [s] exactly when it occurs in [s],
    letter case ignored. *)
Definition literal_law (re_compile_ci : string -> option (string -> bool))
  : Prop :=
  forall pat, plain_pattern pat = true ->
    exists found, re_compile_ci pat = Some found
                  /\ forall s, found s = Str.contains_ci pat s.

(** The engine that reads every pattern as plain text; it satisfies
    [literal_law]. *)
Definition plain_engine (pat : string) : option (string -> bool) :=
  Some (Str.contains_ci pat).

(** A world with the given frames and a fresh loader. *)
Definition fresh_world (frames : list (nat * DataFrame)) : World :=
  {| heap := list_to_map frames; self := init; logged := [] |}.

(** The conversions of a load on the frame alone. *)
Definition load_frame (k : kind) (d : DataFrame) : DataFrame * outcome unit :=
  match k with
  | Bond => convert_frame bond_json_columns parse_json d
  | Cashflow =>
      match convert_frame date_columns parse_dates d with
      | (d1, Return _) => convert_frame numeric_columns parse_numbers d1
      | (d1, Raise e) => (d1, Raise e)
      end
  | Company => convert_frame company_json_columns parse_json d
  end.

Definition kind_name (k : kind) : string :=
  match k with
  | Bond => "bond"
  | Cashflow => "cashflow"
  | Company => "company"
  end.

Definition loaded_message (k : kind) (n : nat) : string :=
  "Loaded " ++ Str.of_nat n ++ " " ++ kind_name k ++ " records".

(** The world a load leaves behind, in its three endings. *)
Definition load_result (k : kind) (df : nat) (d : DataFrame) (w : World)
  : World * outcome unit :=
  match missing_cols (required_columns k) (DF.columns d) with
  | [] =>
      match load_frame k d with
      | (d', Return _) =>
          ({| heap := <[df := d']> (heap w);
              self := with_stored k df (self w);
              logged := (logged w ++ [LogInfo (loaded_message k (df_index d'))])%list |},
           Return tt)
      | (d', Raise e) =>
          ({| heap := <[df := d']> (heap w);
              self := self w;
              logged := (logged w ++ [LogError (error_prefix k) e])%list |},
           Raise e)
      end
  | missing =>
      ({| heap := heap w;
          self := self w;
          logged := (logged w
                     ++ [LogError (error_prefix k)
                           (ValueError (missing_message missing))])%list |},
       Raise (ValueError (missing_message missing)))
  end.

(** ** Frames used in the examples *)

(** A bond table of two rows; its last structured-text column holds a JSON
    text whose value is itself a text. *)
Definition bonds_example : DataFrame :=
  {| df_index := 2;
     df_data :=
       [("isin", [VStr "INE000A01011"; VStr "INE000B01012"]);
        ("company_name", [VStr "Tata Steel"; VNone]);
        ("issue_size", [VInt 100; VInt 250]);
        ("allotment_date", [VStr "01-04-2020"; VStr "15-06-2021"]);
        ("maturity_date", [VStr "01-04-2030"; VStr "15-06-2031"]);
        ("issuer_details", [VStr (Json.q "{'sector': 'steel'}"); VStr "  "]);
        ("instrument_details", [VStr ""; VInt 3]);
        ("coupon_details", [VStr (Json.q "'{bad'"); VNone])] |}.

(** A cashflow table without its amount column. *)
Definition cashflows_incomplete : DataFrame :=
  {| df_index := 1;
     df_data := [("isin", [VStr "INE000A01011"]);
                 ("record_date", [VStr "01-03-2023"])] |}.

Definition cashflows_example : DataFrame :=
  {| df_index := 3;
     df_data :=
       [("isin", [VStr "INE000A01011"; VStr "INE000A01011"; VStr "INE000B01012"]);
        ("cash_flow_date", [VStr "05-03-2023"; VStr "not-a-date"; VNone]);
        ("cash_flow_amount", [VStr "123.45"; VStr "abc"; VInt 7])] |}.

(** One table that serves as company table and as bond table. *)
Definition combined_example : DataFrame :=
  {| df_index := 1;
     df_data :=
       [("isin", [VStr "INE000A01011"]);
        ("company_name", [VStr "Tata Steel"]);
        ("company_industry", [VStr "Metals"]);
        ("issue_size", [VInt 100]);
        ("allotment_date", [VStr "01-04-2020"]);
        ("maturity_date", [VStr "01-04-2030"]);
        ("issuer_details", [VStr (Json.q "{'sector': 'steel'}")]);
        ("instrument_details", [VStr ""]);
        ("coupon_details", [VStr ""])] |}.

Definition companies_example : DataFrame :=
  {| df_index := 4;
     df_data :=
       [("company_name", [VStr "Tata Steel"; VNone; VStr "TATA MOTORS"; VStr "Infosys"]);
        ("company_industry", [VStr "Metals"; VStr "Unknown"; VStr "Auto"; VStr "IT"]);
        ("key_metrics", [VStr (Json.q "{'pe': 12}"); VNone; VStr ""; VStr "{}"])] |}.


(** ** Sessions

    What a caller can do between two states of the world: call a load,
    call a retrieval, or write a frame of its own into the heap (build a
    new one, or change one it holds, the stored ones included). *)

Inductive call :=
| CallLoad (k : kind) (df : nat)
| CallGet (k : kind) (arg : option string)
| CallerWrites (df : nat) (d : DataFrame).

Section Sessions.

Variable re_compile_ci : string -> option (string -> bool).

Definition exec (c : call) (w : World) : World :=
  match c with
  | CallLoad k df => fst (load_data k df w)
  | CallGet k arg => fst (get_data re_compile_ci k arg w)
  | CallerWrites df d => with_heap (<[df := d]> (heap w)) w
  end.

(** The call is a load of kind [k] that returns. *)
Definition loads (k : kind) (c : call) (w : World) : bool :=
  match c with
  | CallLoad k' df =>
      if decide (k' = k) then
        match snd (load_data k' df w) with
        | Return _ => true
        | Raise _ => false
        end
      else false
  | _ => false
  end.

Fixpoint run (calls : list call) (w : World) : World :=
  match calls with
  | [] => w
  | c :: rest => run rest (exec c w)
  end.

(** Some call of the session is a load of kind [k] that returns. *)
Fixpoint loaded_during (k : kind) (calls : list call) (w : World) : bool :=
  match calls with
  | [] => false
  | c :: rest => loads k c w || loaded_during k rest (exec c w)
  end.

End Sessions.

(** The rows a retrieval result shows. *)
Definition retrieved_rows (w : World) (r : retrieved) : list row :=
  match retrieved_frame w r with
  | Some d => DF.rows d
  | None => []
  end.

(** ** Numerals *)




(** ** Columns a load converts *)

(** The columns a load of each kind may rewrite. *)
Definition converted_columns (k : kind) : list string :=
  match k with
  | Bond => bond_json_columns
  | Cashflow => (date_columns ++ numeric_columns)%list
  | Company => company_json_columns
  end.

(** The key column of the filtered retrieval of each kind. *)
Definition key_column (k : kind) : string :=
  match k with
  | Bond | Cashflow => "isin"
  | Company => "company_name"
  end.

(** ** The effect of a load, read off its input alone *)

(** The frame a load writes back over its input, if it writes one. *)
Definition frame_after (k : kind) (input : option DataFrame)
  : option DataFrame :=
  match input with
  | Some d =>
      match missing_cols (required_columns k) (DF.columns d) with
      | [] => Some (fst (load_frame k d))
      | _ => None
      end
  | None => None
  end.

(** How a load ends. *)
Definition load_outcome (k : kind) (input : option DataFrame) : outcome unit :=
  match input with
  | Some d =>
      match missing_cols (required_columns k) (DF.columns d) with
      | [] => snd (load_frame k d)
      | missing => Raise (ValueError (missing_message missing))
      end
  | None => Raise AttributeError
  end.

(** A bond table with its columns and no rows. *)
Definition bonds_empty : DataFrame :=
  {| df_index := 0;
     df_data := map (fun col => (col, [])) bond_required_columns |}.

(** A cashflow table whose caller has dropped the [isin] column after the
    load. *)
Definition cashflows_without_isin : DataFrame :=
  {| df_index := 1;
     df_data := [("cash_flow_date", [VTimestamp 2023 3 5]);
                 ("cash_flow_amount", [VInt 7])] |}.

(** * Sanity checks of the library models *)

Example json_loads_object :
  Json.json_loads (Json.q "{'a': 1, 'b': [true, null, 'x'], 'a': 2.50}")
  = Some (VDict [("a", VFloat (Fdec 250 (-2)));
                 ("b", VList [VBool true; VNone; VStr "x"])]).
Proof. reflexivity. Qed.

Example json_loads_nested :
  Json.json_loads "[[[[[[[[1]]]]]]],{}]"
  = Some (VList [VList [VList [VList [VList [VList [VList [VList [VInt 1]]]]]]];
                 VDict []]).
Proof. reflexivity. Qed.

Example json_loads_malformed :
  Json.json_loads "{bad" = None /\ Json.json_loads "" = None
  /\ Json.json_loads "{} x" = None /\ Json.json_loads "[1,]" = None
  /\ Json.json_loads "01" = None.
Proof. repeat split; reflexivity. Qed.

Example json_loads_string_literal :
  Json.json_loads (Json.q "'{bad'") = Some (VStr "{bad").
Proof. reflexivity. Qed.

Example strptime_dmy_examples :
  Datetime.strptime_dmy "05-03-2023" = Some (2023, 3, 5)%Z
  /\ Datetime.strptime_dmy "5-3-2023" = Some (2023, 3, 5)%Z
  /\ Datetime.strptime_dmy "29-02-2024" = Some (2024, 2, 29)%Z
  /\ Datetime.strptime_dmy "29-02-2023" = None
  /\ Datetime.strptime_dmy "2023-03-05" = None
  /\ Datetime.strptime_dmy "05-03-2023 " = None
  /\ Datetime.strptime_dmy "not-a-date" = None
  /\ Datetime.strftime_dmy 2023 3 5 = "05-03-2023".
Proof. repeat split; reflexivity. Qed.

Example to_numeric_examples :
  Numeric.to_numeric_scalar (VStr "123.45") = VFloat (Fdec 12345 (-2))
  /\ Numeric.to_numeric_scalar (VStr "abc") = VFloat Fnan
  /\ Numeric.to_numeric_scalar (VStr "-17") = VInt (-17)
  /\ Numeric.to_numeric_scalar (VStr " 1e3 ") = VFloat (Fdec 1 3)
  /\ Numeric.to_numeric_scalar (VStr "") = VFloat Fnan
  /\ Numeric.to_numeric_scalar (VStr "1,000") = VFloat Fnan
  /\ Numeric.to_numeric_scalar VNone = VFloat Fnan.
Proof. repeat split; reflexivity. Qed.

Example of_nat_examples :
  Str.of_nat 0 = "0" /\ Str.of_nat 7 = "7" /\ Str.of_nat 1234 = "1234"
  /\ Str.join ", " ["a"; "b"; "c"] = "a, b, c"
  /\ Str.strip "  x y  " = "x y"
  /\ Str.contains_ci "tata" "The TATA Group" = true
  /\ Str.contains_ci "tata" "Infosys" = false.
Proof. repeat split; reflexivity. Qed.

(** * The fuel of the JSON decoder is enough *)

Lemma skip_ws_length l : length (Json.skip_ws l) <= length l.
Proof.
  induction l as [|c l IH]; simpl; [lia|].
  destruct (Json.is_ws c); simpl; lia.
Qed.

Lemma strip_prefix_length p : forall l r,
  Json.strip_prefix p l = Some r -> length l = length p + length r.
Proof.
  induction p as [|a p IH]; intros l r; simpl.
  - intros H. now inversion H.
  - destruct l as [|b l]; [discriminate|].
    destruct (Ascii.eqb a b); [|discriminate].
    intros H. apply IH in H. simpl. lia.
Qed.

Lemma literal_length word v l res :
  Str.chars word <> [] ->
  Json.literal word v l = Some res -> length (snd res) < length l.
Proof.
  unfold Json.literal. intros Hne.
  destruct (Json.strip_prefix (Str.chars word) l) as [r|] eqn:E; [|discriminate].
  intros H. inversion H; subst. simpl. apply strip_prefix_length in E.
  destruct (Str.chars word); [congruence|]. simpl in E. lia.
Qed.

Lemma scanstring_length_aux n : forall l acc s r,
  length l <= n -> Json.scanstring l acc = Some (s, r) -> length r < length l.
Proof.
  induction n as [|n IH]; intros l acc s r Hn.
  - destruct l; [discriminate|simpl in Hn; lia].
  - destruct l as [|c l]; [discriminate|]. simpl in Hn.
    cbn [Json.scanstring].
    destruct (Ascii.eqb c Json.dquote).
    + intros H. inversion H; subst. simpl. lia.
    + destruct (Ascii.eqb c Json.backslash).
      * destruct l as [|e l]; [discriminate|].
        destruct (Ascii.eqb e "u").
        -- destruct l as [|h1 [|h2 [|h3 [|h4 l]]]]; try discriminate.
           destruct (Json.hex4 [h1; h2; h3; h4]) as [[k ?]|]; [|discriminate].
           destruct (k <? 256)%N; [|discriminate].
           intros H. apply IH in H; simpl in *; lia.
        -- destruct (Json.escape_char e); [|discriminate].
           intros H. apply IH in H; simpl in *; lia.
      * destruct (Str.code c <? 32)%N; [discriminate|].
        intros H. apply IH in H; simpl in *; lia.
Qed.

Lemma scanstring_length l acc s r :
  Json.scanstring l acc = Some (s, r) -> length r < length l.
Proof. apply (scanstring_length_aux (length l)). lia. Qed.

Lemma span_digits_length l :
  length (snd (Json.span_digits l)) <= length l.
Proof.
  induction l as [|c l IH]; simpl; [lia|].
  destruct (Str.is_digit c); [|simpl; lia].
  destruct (Json.span_digits l). simpl in *. lia.
Qed.

Lemma match_frac_length l : length (snd (Json.match_frac l)) <= length l.
Proof.
  unfold Json.match_frac.
  destruct l as [|c l]; [simpl; lia|].
  destruct (Ascii.eqb c ".") eqn:Ec.
  - apply Ascii.eqb_eq in Ec. subst c.
    destruct l as [|d l]; [simpl; lia|].
    destruct (Str.is_digit d); [|simpl; lia].
    pose proof (span_digits_length (d :: l)) as H.
    destruct (Json.span_digits (d :: l)). simpl in *. lia.
  - assert (Hc : Json.match_frac (c :: l) = (None, c :: l)).
    { unfold Json.match_frac.
      destruct c as [[] [] [] [] [] [] [] []]; try reflexivity; discriminate. }
    unfold Json.match_frac in Hc. rewrite Hc. simpl. lia.
Qed.

Lemma exp_digits_length negative l back :
  length l <= length back ->
  length (snd (Json.exp_digits negative l back)) <= length back.
Proof.
  intros H. unfold Json.exp_digits.
  pose proof (span_digits_length l) as Hs.
  destruct (Json.span_digits l) as [[|d ds] rest]; simpl in *; lia.
Qed.

Lemma match_exp_length l : length (snd (Json.match_exp l)) <= length l.
Proof.
  unfold Json.match_exp. destruct l as [|e r]; [simpl; lia|].
  destruct (Ascii.eqb e "e" || Ascii.eqb e "E"); [|simpl; lia].
  destruct r as [|c r']; [apply exp_digits_length; simpl; lia|].
  assert (Hc :
    match c :: r' with
    | "-"%char :: r'0 => Json.exp_digits true r'0 (e :: c :: r')
    | "+"%char :: r'0 => Json.exp_digits false r'0 (e :: c :: r')
    | _ => Json.exp_digits false (c :: r') (e :: c :: r')
    end = Json.exp_digits true r' (e :: c :: r')
    \/ match c :: r' with
       | "-"%char :: r'0 => Json.exp_digits true r'0 (e :: c :: r')
       | "+"%char :: r'0 => Json.exp_digits false r'0 (e :: c :: r')
       | _ => Json.exp_digits false (c :: r') (e :: c :: r')
       end = Json.exp_digits false r' (e :: c :: r')
    \/ match c :: r' with
       | "-"%char :: r'0 => Json.exp_digits true r'0 (e :: c :: r')
       | "+"%char :: r'0 => Json.exp_digits false r'0 (e :: c :: r')
       | _ => Json.exp_digits false (c :: r') (e :: c :: r')
       end = Json.exp_digits false (c :: r') (e :: c :: r')).
  { destruct c as [[] [] [] [] [] [] [] []]; auto. }
  destruct Hc as [-> | [-> | ->]]; apply exp_digits_length; simpl; lia.
Qed.

Lemma match_number_length l v r :
  Json.match_number l = Some (v, r) -> length r < length l.
Proof.
  unfold Json.match_number.
  assert (Hs : exists negative l1,
             (match l with
              | "-"%char :: r0 => (true, r0)
              | _ => (false, l)
              end) = (negative, l1) /\ length l1 <= length l).
  { destruct l as [|c l0]; [exists false, []; split; [reflexivity|simpl; lia]|].
    destruct (Ascii.eqb c "-") eqn:Ec.
    - apply Ascii.eqb_eq in Ec. subst c. exists true, l0. split; [reflexivity|simpl; lia].
    - exists false, (c :: l0). split; [|lia].
      destruct c as [[] [] [] [] [] [] [] []]; try reflexivity; discriminate. }
  destruct Hs as (negative & l1 & -> & Hl1).
  destruct l1 as [|c r0]; [discriminate|].
  destruct (Str.is_digit c) eqn:Ed; [|discriminate].
  assert (Hip : length (snd (if Ascii.eqb c "0" then ([c], r0)
                             else Json.span_digits (c :: r0)))
                <= length r0).
  { destruct (Ascii.eqb c "0"); simpl; [lia|]. rewrite Ed.
    pose proof (span_digits_length r0) as Hs.
    destruct (Json.span_digits r0). simpl in *. lia. }
  destruct (if Ascii.eqb c "0" then ([c], r0) else Json.span_digits (c :: r0))
    as [ip r1].
  pose proof (match_frac_length r1) as Hf.
  destruct (Json.match_frac r1) as [frac r2].
  pose proof (match_exp_length r2) as He.
  destruct (Json.match_exp r2) as [ex r3].
  simpl in *.
  destruct frac, ex; intros H; inversion H; subst; lia.
Qed.

(** What a successful [scan_step] has done: read a scalar or an empty
    container by itself, or handed a shorter text to one of its loops. *)
Lemma scan_step_inv arr obj l v r :
  Json.scan_step arr obj l = Some (v, r) ->
  (length r < length l
   /\ forall arr' obj', Json.scan_step arr' obj' l = Some (v, r))
  \/ (exists l', length l' < length l /\ arr l' = Some (v, r)
        /\ forall arr' obj', arr' l' = Some (v, r) ->
                             Json.scan_step arr' obj' l = Some (v, r))
  \/ (exists l', length l' < length l /\ obj l' = Some (v, r)
        /\ forall arr' obj', obj' l' = Some (v, r) ->
                             Json.scan_step arr' obj' l = Some (v, r)).
Proof.
  unfold Json.scan_step. destruct l as [|c l0]; [discriminate|].
  destruct (Ascii.eqb c Json.dquote).
  { destruct (Json.scanstring l0 []) as [[s r']|] eqn:E; [|discriminate].
    intros H. inversion H; subst. left.
    apply scanstring_length in E. split; [simpl; lia|reflexivity]. }
  destruct (Ascii.eqb c "{").
  { pose proof (skip_ws_length l0) as Hw.
    destruct (Json.skip_ws l0) as [|c1 l1] eqn:E1.
    - intros H. right. right. exists []. split; [simpl; lia|].
      split; [exact H|auto].
    - destruct (Ascii.eqb c1 "}") eqn:Ec1.
      + apply Ascii.eqb_eq in Ec1. subst c1. intros H. inversion H; subst.
        left. split; [simpl in *; lia|reflexivity].
      + intros H. right. right. exists (c1 :: l1).
        assert (Hm : forall o : list ascii -> option (pyobj * list ascii),
                   match c1 :: l1 with
                   | "}"%char :: r' => Some (VDict [], r')
                   | r' => o r'
                   end = o (c1 :: l1)).
        { intros o. destruct c1 as [[] [] [] [] [] [] [] []];
            try reflexivity; discriminate. }
        rewrite Hm in H. split; [simpl in *; lia|]. split; [exact H|].
        intros arr' obj' H'. now rewrite Hm. }
  destruct (Ascii.eqb c "[").
  { pose proof (skip_ws_length l0) as Hw.
    destruct (Json.skip_ws l0) as [|c1 l1] eqn:E1.
    - intros H. right. left. exists []. split; [simpl; lia|].
      split; [exact H|auto].
    - destruct (Ascii.eqb c1 "]") eqn:Ec1.
      + apply Ascii.eqb_eq in Ec1. subst c1. intros H. inversion H; subst.
        left. split; [simpl in *; lia|reflexivity].
      + intros H. right. left. exists (c1 :: l1).
        assert (Hm : forall o : list ascii -> option (pyobj * list ascii),
                   match c1 :: l1 with
                   | "]"%char :: r' => Some (VList [], r')
                   | r' => o r'
                   end = o (c1 :: l1)).
        { intros o. destruct c1 as [[] [] [] [] [] [] [] []];
            try reflexivity; discriminate. }
        rewrite Hm in H. split; [simpl in *; lia|]. split; [exact H|].
        intros arr' obj' H'. now rewrite Hm. }
  assert (Hlit : forall word val,
             Str.chars word <> [] ->
             Json.literal word val (c :: l0) = Some (v, r) ->
             length r < length (c :: l0)).
  { intros word val Hne H. now apply (literal_length word val _ _ Hne) in H. }
  intros H. left. split; [|intros; exact H].
  destruct (Ascii.eqb c "n"); [now apply (Hlit "null" VNone)|].
  destruct (Ascii.eqb c "t"); [now apply (Hlit "true" (VBool true))|].
  destruct (Ascii.eqb c "f"); [now apply (Hlit "false" (VBool false))|].
  destruct (Json.match_number (c :: l0)) as [[v0 r0]|] eqn:En.
  { inversion H; subst. now apply match_number_length in En. }
  destruct (Ascii.eqb c "N"); [now apply (Hlit "NaN" (VFloat Fnan))|].
  destruct (Ascii.eqb c "I");
    [now apply (Hlit "Infinity" (VFloat (Finf false)))|].
  destruct (Ascii.eqb c "-");
    [now apply (Hlit "-Infinity" (VFloat (Finf true)))|].
  discriminate.
Qed.

Lemma array_step_inv scan arr l acc v r :
  Json.array_step scan arr l acc = Some (v, r) ->
  exists v1 r1,
    scan l = Some (v1, r1)
    /\ ((length r < length r1
         /\ forall scan' arr', scan' l = Some (v1, r1) ->
              Json.array_step scan' arr' l acc = Some (v, r))
        \/ exists l2 acc2,
             length l2 < length r1 /\ arr l2 acc2 = Some (v, r)
             /\ forall scan' arr',
                  scan' l = Some (v1, r1) -> arr' l2 acc2 = Some (v, r) ->
                  Json.array_step scan' arr' l acc = Some (v, r)).
Proof.
  unfold Json.array_step.
  destruct (scan l) as [[v1 r1]|] eqn:Es; [|discriminate].
  intros H. exists v1, r1. split; [reflexivity|].
  pose proof (skip_ws_length r1) as Hw.
  destruct (Json.skip_ws r1) as [|c r'] eqn:Ew; [discriminate|].
  destruct (Ascii.eqb c ",") eqn:E1.
  - apply Ascii.eqb_eq in E1. subst c. right.
    exists (Json.skip_ws r'), (v1 :: acc).
    pose proof (skip_ws_length r') as Hw'.
    split; [simpl in *; lia|]. split; [exact H|].
    intros scan' arr' Hs Ha. now rewrite Hs, Ew.
  - destruct (Ascii.eqb c "]") eqn:E2.
    + apply Ascii.eqb_eq in E2. subst c. inversion H; subst. left.
      split; [simpl in *; lia|].
      intros scan' arr' Hs. now rewrite Hs, Ew.
    + exfalso. destruct c as [[] [] [] [] [] [] [] []]; discriminate.
Qed.

Lemma object_step_inv scan obj l acc v r :
  Json.object_step scan obj l acc = Some (v, r) ->
  exists l1 v1 r3,
    length l1 + 3 <= length l /\ scan l1 = Some (v1, r3)
    /\ ((length r < length r3
         /\ forall scan' obj', scan' l1 = Some (v1, r3) ->
              Json.object_step scan' obj' l acc = Some (v, r))
        \/ exists l2 acc2,
             length l2 < length r3 /\ obj l2 acc2 = Some (v, r)
             /\ forall scan' obj',
                  scan' l1 = Some (v1, r3) -> obj' l2 acc2 = Some (v, r) ->
                  Json.object_step scan' obj' l acc = Some (v, r)).
Proof.
  unfold Json.object_step. destruct l as [|q l0]; [discriminate|].
  destruct (Ascii.eqb q Json.dquote); [|discriminate].
  destruct (Json.scanstring l0 []) as [[k r1]|] eqn:Ek; [|discriminate].
  apply scanstring_length in Ek as Hk.
  pose proof (skip_ws_length r1) as Hw1.
  destruct (Json.skip_ws r1) as [|c1 r2] eqn:Ew1; [discriminate|].
  destruct (Ascii.eqb c1 ":") eqn:Ec1.
  2:{ intros H. exfalso. destruct c1 as [[] [] [] [] [] [] [] []]; discriminate. }
  apply Ascii.eqb_eq in Ec1. subst c1.
  pose proof (skip_ws_length r2) as Hw2.
  destruct (scan (Json.skip_ws r2)) as [[v1 r3]|] eqn:Es; [|discriminate].
  intros H. exists (Json.skip_ws r2), v1, r3.
  split; [simpl in *; lia|]. split; [exact Es|].
  pose proof (skip_ws_length r3) as Hw3.
  destruct (Json.skip_ws r3) as [|c r4] eqn:Ew3; [discriminate|].
  destruct (Ascii.eqb c ",") eqn:E1.
  - apply Ascii.eqb_eq in E1. subst c. right.
    exists (Json.skip_ws r4), (Json.dict_set k v1 acc).
    pose proof (skip_ws_length r4) as Hw4.
    split; [simpl in *; lia|]. split; [exact H|].
    intros scan' obj' Hs Ho. now rewrite Hs, Ew3.
  - destruct (Ascii.eqb c "}") eqn:E2.
    + apply Ascii.eqb_eq in E2. subst c. inversion H; subst. left.
      split; [simpl in *; lia|].
      intros scan' obj' Hs. now rewrite Hs, Ew3.
    + exfalso. destruct c as [[] [] [] [] [] [] [] []]; discriminate.
Qed.

(** One more unit of fuel changes no result. *)
Lemma fuel_succ n :
  (forall l res, Json.scan_once n l = Some res ->
                 Json.scan_once (S n) l = Some res)
  /\ (forall l acc res, Json.array_items n l acc = Some res ->
                        Json.array_items (S n) l acc = Some res)
  /\ (forall l acc res, Json.object_items n l acc = Some res ->
                        Json.object_items (S n) l acc = Some res).
Proof.
  induction n as [|n (IHs & IHa & IHo)]; [repeat split; discriminate|].
  split; [|split].
  - intros l [v r] H. cbn [Json.scan_once] in H.
    change (Json.scan_step (fun l' => Json.array_items (S n) l' [])
              (fun l' => Json.object_items (S n) l' []) l = Some (v, r)).
    apply scan_step_inv in H
      as [[_ H]|[(l' & _ & Ha & H)|(l' & _ & Ho & H)]].
    + apply H.
    + apply H. now apply IHa.
    + apply H. now apply IHo.
  - intros l acc [v r] H. cbn [Json.array_items] in H.
    change (Json.array_step (Json.scan_once (S n)) (Json.array_items (S n))
              l acc = Some (v, r)).
    apply array_step_inv in H
      as (v1 & r1 & Hs & [[_ H]|(l2 & acc2 & _ & Ha & H)]).
    + apply H. now apply IHs.
    + apply H; [now apply IHs|now apply IHa].
  - intros l acc [v r] H. cbn [Json.object_items] in H.
    change (Json.object_step (Json.scan_once (S n)) (Json.object_items (S n))
              l acc = Some (v, r)).
    apply object_step_inv in H
      as (l1 & v1 & r3 & _ & Hs & [[_ H]|(l2 & acc2 & _ & Ho & H)]).
    + apply H. now apply IHs.
    + apply H; [now apply IHs|now apply IHo].
Qed.

Lemma fuel_le n m :
  n <= m ->
  (forall l res, Json.scan_once n l = Some res -> Json.scan_once m l = Some res)
  /\ (forall l acc res, Json.array_items n l acc = Some res ->
                        Json.array_items m l acc = Some res)
  /\ (forall l acc res, Json.object_items n l acc = Some res ->
                        Json.object_items m l acc = Some res).
Proof.
  induction 1 as [|m _ (IHs & IHa & IHo)]; [auto|].
  destruct (fuel_succ m) as (Hs & Ha & Ho).
  repeat split; eauto.
Qed.

(** A result is obtained with fuel proportional to the text it reads. *)
Lemma fuel_bound n :
  (forall l v r, Json.scan_once n l = Some (v, r) ->
     length r < length l
     /\ Json.scan_once (2 * (length l - length r) - 1) l = Some (v, r))
  /\ (forall l acc v r, Json.array_items n l acc = Some (v, r) ->
        length r + 2 <= length l
        /\ Json.array_items (2 * (length l - length r) - 2) l acc = Some (v, r))
  /\ (forall l acc v r, Json.object_items n l acc = Some (v, r) ->
        length r + 2 <= length l
        /\ Json.object_items (2 * (length l - length r) - 2) l acc
           = Some (v, r)).
Proof.
  induction n as [|n (IHs & IHa & IHo)]; [repeat split; discriminate|].
  split; [|split].
  - intros l v r H. cbn [Json.scan_once] in H.
    apply scan_step_inv in H
      as [[Hlen H]|[(l' & Hl' & Ha & H)|(l' & Hl' & Ho & H)]].
    + split; [exact Hlen|].
      replace (2 * (length l - length r) - 1)
        with (S (2 * (length l - length r) - 2)) by lia.
      apply H.
    + apply IHa in Ha as [Hlen Ha]. split; [lia|].
      replace (2 * (length l - length r) - 1)
        with (S (2 * (length l - length r) - 2)) by lia.
      cbn [Json.scan_once]. apply H.
      refine (proj1 (proj2 (fuel_le _ _ _)) _ _ _ Ha). lia.
    + apply IHo in Ho as [Hlen Ho]. split; [lia|].
      replace (2 * (length l - length r) - 1)
        with (S (2 * (length l - length r) - 2)) by lia.
      cbn [Json.scan_once]. apply H.
      refine (proj2 (proj2 (fuel_le _ _ _)) _ _ _ Ho). lia.
  - intros l acc v r H. cbn [Json.array_items] in H.
    apply array_step_inv in H
      as (v1 & r1 & Hs & [[Hlen H]|(l2 & acc2 & Hl2 & Ha & H)]).
    + apply IHs in Hs as [Hlen1 Hs]. split; [lia|].
      replace (2 * (length l - length r) - 2)
        with (S (2 * (length l - length r) - 3)) by lia.
      cbn [Json.array_items]. apply H.
      refine (proj1 (fuel_le _ _ _) _ _ Hs). lia.
    + apply IHs in Hs as [Hlen1 Hs]. apply IHa in Ha as [Hlen2 Ha].
      split; [lia|].
      replace (2 * (length l - length r) - 2)
        with (S (2 * (length l - length r) - 3)) by lia.
      cbn [Json.array_items]. apply H.
      * refine (proj1 (fuel_le _ _ _) _ _ Hs). lia.
      * refine (proj1 (proj2 (fuel_le _ _ _)) _ _ _ Ha). lia.
  - intros l acc v r H. cbn [Json.object_items] in H.
    apply object_step_inv in H
      as (l1 & v1 & r3 & Hl1 & Hs & [[Hlen H]|(l2 & acc2 & Hl2 & Ho & H)]).
    + apply IHs in Hs as [Hlen1 Hs]. split; [lia|].
      replace (2 * (length l - length r) - 2)
        with (S (2 * (length l - length r) - 3)) by lia.
      cbn [Json.object_items]. apply H.
      refine (proj1 (fuel_le _ _ _) _ _ Hs). lia.
    + apply IHs in Hs as [Hlen1 Hs]. apply IHo in Ho as [Hlen2 Ho].
      split; [lia|].
      replace (2 * (length l - length r) - 2)
        with (S (2 * (length l - length r) - 3)) by lia.
      cbn [Json.object_items]. apply H.
      * refine (proj1 (fuel_le _ _ _) _ _ Hs). lia.
      * refine (proj2 (proj2 (fuel_le _ _ _)) _ _ _ Ho). lia.
Qed.

(** [json_loads] never runs out of fuel: it finds the value of a text
    whenever some amount of fuel does. *)
Theorem json_loads_fuel (s : string) (v : pyobj) :
  Json.json_loads s = Some v
  <-> exists n r,
        Json.scan_once n (Json.skip_ws (Str.chars s)) = Some (v, r)
        /\ Json.skip_ws r = [].
Proof.
  unfold Json.json_loads. split.
  - destruct (Json.scan_once _ _) as [[v0 r]|] eqn:E; [|discriminate].
    destruct (Json.skip_ws r) eqn:Er; [|discriminate].
    intros H. inversion H; subst. eauto.
  - intros (n & r & Hn & Hr).
    destruct (fuel_bound n) as (Hb & _ & _).
    apply Hb in Hn as [Hlen Hn].
    pose proof (skip_ws_length (Str.chars s)) as Hw.
    assert (Hle : 2 * (length (Json.skip_ws (Str.chars s)) - length r) - 1
                  <= 2 * length (Str.chars s) + 2) by lia.
    rewrite (proj1 (fuel_le _ _ Hle) _ _ Hn).
    now rewrite Hr.
Qed.

(** * Frames: columns, lookup and update *)

Lemma elem_In (col : string) (cols : list string) :
  DF.elem col cols = true <-> In col cols.
Proof.
  unfold DF.elem. rewrite existsb_exists. split.
  - intros [x [Hin Heq]]. apply String.eqb_eq in Heq. now subst.
  - intros Hin. exists col. split; [assumption | apply String.eqb_refl].
Qed.

Lemma elem_false (col : string) (cols : list string) :
  DF.elem col cols = false <-> ~ In col cols.
Proof.
  rewrite <- elem_In. destruct (DF.elem col cols); split; congruence.
Qed.

Lemma lookup_col_elem (col : string) (data : list (string * Series)) :
  DF.elem col (map fst data) = true <-> exists ser, DF.lookup_col col data = Some ser.
Proof.
  induction data as [|[c ser] data IH]; simpl.
  - split; [discriminate | intros [? ?]; discriminate].
  - rewrite (String.eqb_sym col c). destruct (String.eqb c col) eqn:E; simpl.
    + split; eauto.
    + exact IH.
Qed.

Lemma getitem_elem (col : string) (d : DataFrame) :
  DF.elem col (DF.columns d) = true <-> exists ser, DF.getitem col d = Some ser.
Proof. apply lookup_col_elem. Qed.

Lemma getitem_absent (col : string) (d : DataFrame) :
  DF.elem col (DF.columns d) = false -> DF.getitem col d = None.
Proof.
  intros H. destruct (DF.getitem col d) eqn:E; [|reflexivity].
  assert (DF.elem col (DF.columns d) = true) by (apply getitem_elem; eauto).
  congruence.
Qed.

Lemma replace_col_columns col ser (data : list (string * Series)) :
  DF.elem col (map fst data) = true ->
  map fst (DF.replace_col col ser data) = map fst data.
Proof.
  induction data as [|[c old] data IH]; simpl; [discriminate|].
  rewrite (String.eqb_sym col c). destruct (String.eqb c col) eqn:E; simpl.
  - reflexivity.
  - intros H. now rewrite IH.
Qed.

Lemma columns_setitem col ser d :
  DF.elem col (DF.columns d) = true ->
  DF.columns (DF.setitem col ser d) = DF.columns d.
Proof. apply replace_col_columns. Qed.

(** Replacing a column that occurs once is the pointwise change of that
    column. *)
Lemma replace_col_map col ser (data : list (string * Series)) :
  List.NoDup (map fst data) -> In col (map fst data) ->
  DF.replace_col col ser data
  = map (fun cs : string * Series =>
           if String.eqb (fst cs) col then (fst cs, ser) else cs) data.
Proof.
  induction data as [|[c old] data IH]; simpl; [tauto|].
  intros Hnd Hin. apply List.NoDup_cons_iff in Hnd as Hnd'.
  destruct Hnd' as [Hc Hnd'].
  destruct (String.eqb c col) eqn:E.
  - apply String.eqb_eq in E. subst c. f_equal.
    clear IH Hin Hnd. induction data as [|[c' old'] data IH]; simpl; [reflexivity|].
    destruct (String.eqb c' col) eqn:E'.
    + apply String.eqb_eq in E'. subst c'. exfalso. apply Hc. simpl. now left.
    + f_equal. apply IH.
      * intros H. apply Hc. simpl. now right.
      * now apply List.NoDup_cons_iff in Hnd' as [_ ?].
  - f_equal. apply IH; [assumption|].
    destruct Hin as [Hin|Hin]; [|assumption].
    subst c. rewrite String.eqb_refl in E. discriminate.
Qed.

Lemma lookup_col_map (g : string * Series -> Series) col
  (data : list (string * Series)) :
  DF.lookup_col col (map (fun cs => (fst cs, g cs)) data)
  = match DF.lookup_col col data with
    | Some ser => Some (g (col, ser))
    | None => None
    end.
Proof.
  induction data as [|[c old] data IH]; simpl; [reflexivity|].
  destruct (String.eqb c col) eqn:E; [|exact IH].
  apply String.eqb_eq in E. now subst.
Qed.

(** [converted] written with the column label kept apart. *)
Lemma converted_data cols f d :
  df_data (converted cols f d)
  = map (fun cs : string * Series =>
           (fst cs, if DF.elem (fst cs) cols
                    then match f (snd cs) with
                         | Return ser => ser
                         | Raise _ => snd cs
                         end
                    else snd cs)) (df_data d).
Proof.
  simpl. apply map_ext. intros [c ser]. simpl.
  now destruct (DF.elem c cols).
Qed.

Lemma columns_converted cols f d :
  DF.columns (converted cols f d) = DF.columns d.
Proof.
  unfold DF.columns. rewrite converted_data, List.map_map. reflexivity.
Qed.

Lemma getitem_converted cols f d col :
  DF.getitem col (converted cols f d)
  = match DF.getitem col d with
    | Some ser =>
        Some (if DF.elem col cols
              then match f ser with Return s => s | Raise _ => ser end
              else ser)
    | None => None
    end.
Proof.
  unfold DF.getitem. rewrite converted_data.
  rewrite (lookup_col_map
             (fun cs => if DF.elem (fst cs) cols
                        then match f (snd cs) with
                             | Return ser => ser
                             | Raise _ => snd cs
                             end
                        else snd cs)).
  reflexivity.
Qed.

Lemma converted_nil f d : converted [] f d = d.
Proof.
  destruct d as [n data]. unfold converted. simpl. f_equal.
  induction data as [|[c s] data IH]; simpl; [reflexivity|now rewrite IH].
Qed.

(** * The conversion loop *)

Lemma with_heap_id (w : World) (df : nat) (d : DataFrame) :
  heap w !! df = Some d -> with_heap (<[df := d]> (heap w)) w = w.
Proof.
  intros H. destruct w as [h s l]. unfold with_heap. simpl in *.
  f_equal. now apply insert_id.
Qed.

Lemma deref_some (w : World) (df : nat) (d : DataFrame) :
  heap w !! df = Some d -> deref df w = (w, Return d).
Proof. intros H. unfold deref. now rewrite H. Qed.

Lemma bind_return {A B : Type} (m : M A) (k : A -> M B) w w' a :
  m w = (w', Return a) -> bind m k w = k a w'.
Proof. intros H. unfold bind. now rewrite H. Qed.

Lemma bind_raise {A B : Type} (m : M A) (k : A -> M B) w w' e :
  m w = (w', Raise e) -> bind m k w = (w', Raise e).
Proof. intros H. unfold bind. now rewrite H. Qed.

Lemma df_columns_some w df d :
  heap w !! df = Some d -> df_columns df w = (w, Return (DF.columns d)).
Proof.
  intros H. unfold df_columns. now rewrite (bind_return _ _ _ _ _ (deref_some w df d H)).
Qed.

Lemma df_len_some w df d :
  heap w !! df = Some d -> df_len df w = (w, Return (df_index d)).
Proof.
  intros H. unfold df_len. now rewrite (bind_return _ _ _ _ _ (deref_some w df d H)).
Qed.

Lemma df_getitem_some w df d col :
  heap w !! df = Some d ->
  df_getitem df col w
  = (w, match DF.getitem col d with
        | Some ser => Return ser
        | None => Raise (KeyError col)
        end).
Proof.
  intros H. unfold df_getitem.
  rewrite (bind_return _ _ _ _ _ (deref_some w df d H)).
  now destruct (DF.getitem col d).
Qed.

Lemma df_setitem_some w df d col ser :
  heap w !! df = Some d ->
  df_setitem df col ser w
  = (with_heap (<[df := DF.setitem col ser d]> (heap w)) w, Return tt).
Proof.
  intros H. unfold df_setitem.
  now rewrite (bind_return _ _ _ _ _ (deref_some w df d H)).
Qed.

(** The loop over the world is the loop over the frame behind [df]; no
    other object of the heap, nor the loader, nor the log is touched. *)
Lemma convert_columns_frame cols f df : forall (w : World) (d : DataFrame),
  heap w !! df = Some d ->
  convert_columns cols f df w
  = (with_heap (<[df := fst (convert_frame cols f d)]> (heap w)) w,
     snd (convert_frame cols f d)).
Proof.
  unfold convert_columns.
  induction cols as [|col rest IH]; intros w d Hd; simpl.
  - unfold ret. now rewrite with_heap_id.
  - destruct (DF.elem col (DF.columns d)) eqn:Ecol.
    + destruct (DF.getitem col d) as [ser|] eqn:Eget.
      * destruct (f ser) as [ser'|e] eqn:Ef.
        -- erewrite bind_return.
           2:{ erewrite bind_return by (apply df_columns_some; eassumption).
               rewrite Ecol.
               erewrite bind_return
                 by (rewrite (df_getitem_some _ _ _ _ Hd), Eget; reflexivity).
               erewrite bind_return by (unfold lift; rewrite Ef; reflexivity).
               apply df_setitem_some. eassumption. }
           rewrite (IH _ (DF.setitem col ser' d)).
           ++ unfold with_heap. simpl. now rewrite insert_insert_eq.
           ++ simpl. apply lookup_insert_eq.
        -- erewrite bind_raise.
           ++ simpl. now rewrite with_heap_id.
           ++ erewrite bind_return by (apply df_columns_some; eassumption).
              rewrite Ecol.
              erewrite bind_return
                by (rewrite (df_getitem_some _ _ _ _ Hd), Eget; reflexivity).
              apply bind_raise. unfold lift. now rewrite Ef.
      * erewrite bind_raise.
        -- simpl. now rewrite with_heap_id.
        -- erewrite bind_return by (apply df_columns_some; eassumption).
           rewrite Ecol. apply bind_raise.
           now rewrite (df_getitem_some _ _ _ _ Hd), Eget.
    + erewrite bind_return.
      2:{ erewrite bind_return by (apply df_columns_some; eassumption).
          rewrite Ecol. reflexivity. }
      now apply IH.
Qed.

Lemma convert_frame_app pre post f : forall d,
  convert_frame (pre ++ post) f d
  = match convert_frame pre f d with
    | (d', Return _) => convert_frame post f d'
    | (d', Raise e) => (d', Raise e)
    end.
Proof.
  induction pre as [|col pre IH]; intros d; simpl; [reflexivity|].
  destruct (DF.elem col (DF.columns d)); [|apply IH].
  destruct (DF.getitem col d) as [ser|]; [|reflexivity].
  destruct (f ser); [apply IH|reflexivity].
Qed.

Lemma lookup_col_in (data : list (string * Series)) c s :
  List.NoDup (map fst data) -> In (c, s) data -> DF.lookup_col c data = Some s.
Proof.
  induction data as [|[c0 s0] data IH]; simpl; [tauto|].
  intros Hnd [Heq|Hin].
  - inversion Heq; subst. now rewrite String.eqb_refl.
  - apply List.NoDup_cons_iff in Hnd as [Hc Hnd].
    destruct (String.eqb c0 c) eqn:E.
    + apply String.eqb_eq in E. subst c0. exfalso. apply Hc.
      apply in_map_iff. now exists (c, s).
    + now apply IH.
Qed.

(** One more column converted. *)
Lemma converted_cons col rest f d ser ser' :
  List.NoDup (DF.columns d) -> ~ In col rest ->
  DF.getitem col d = Some ser -> f ser = Return ser' ->
  converted rest f (DF.setitem col ser' d) = converted (col :: rest) f d.
Proof.
  intros Hnd Hnot Hget Hf.
  assert (Hin : In col (DF.columns d)).
  { apply elem_In, getitem_elem. eauto. }
  unfold converted, DF.setitem. cbn [df_index df_data]. f_equal.
  rewrite (replace_col_map col ser' (df_data d) Hnd Hin), List.map_map.
  apply map_ext_in. intros [c s] Hcs. cbn [fst snd].
  destruct (String.eqb c col) eqn:E.
  - apply String.eqb_eq in E. subst c. cbn [fst snd].
    assert (DF.elem col rest = false) as -> by now apply elem_false.
    assert (DF.elem col (col :: rest) = true) as ->
      by (apply elem_In; now left).
    pose proof (lookup_col_in _ _ _ Hnd Hcs) as Hl.
    unfold DF.getitem in Hget. rewrite Hl in Hget. inversion Hget; subst s.
    now rewrite Hf.
  - assert (DF.elem c (col :: rest) = DF.elem c rest) as ->.
    { unfold DF.elem. cbn [existsb]. now rewrite E. }
    reflexivity.
Qed.

Lemma converted_absent col rest f d :
  DF.elem col (DF.columns d) = false ->
  converted (col :: rest) f d = converted rest f d.
Proof.
  intros H. apply elem_false in H. unfold converted. f_equal.
  apply map_ext_in. intros [c s] Hin. simpl.
  destruct (String.eqb c col) eqn:E; [|reflexivity].
  apply String.eqb_eq in E. subst c. exfalso. apply H.
  unfold DF.columns. apply in_map_iff. now exists (col, s).
Qed.

(** When every named column converts, the loop ends normally and leaves
    the frame with exactly the named columns converted. *)
Lemma convert_frame_ok cols f : forall d,
  List.NoDup cols -> List.NoDup (DF.columns d) -> convertible cols f d ->
  convert_frame cols f d = (converted cols f d, Return tt).
Proof.
  induction cols as [|col rest IH]; intros d Hcols Hnd Hconv; simpl.
  - now rewrite converted_nil.
  - apply List.NoDup_cons_iff in Hcols as [Hnot Hrest].
    destruct (DF.elem col (DF.columns d)) eqn:Ecol.
    + apply getitem_elem in Ecol as Hget. destruct Hget as [ser Hget].
      rewrite Hget.
      destruct (Hconv col ser (or_introl eq_refl) Hget) as [ser' Hf].
      rewrite Hf.
      rewrite IH.
      * f_equal. now apply (converted_cons col rest f d ser ser').
      * exact Hrest.
      * now rewrite columns_setitem.
      * intros c s Hin Hg.
        assert (Hne : col <> c) by (intros ->; contradiction).
        apply (Hconv c s (or_intror Hin)).
        rewrite <- Hg. unfold DF.getitem, DF.setitem. simpl.
        clear -Hne. induction (df_data d) as [|[c0 s0] data IH]; simpl.
        -- apply String.eqb_neq in Hne. now rewrite Hne.
        -- destruct (String.eqb c0 col) eqn:E; simpl.
           ++ apply String.eqb_eq in E. subst c0.
              apply String.eqb_neq in Hne. now rewrite Hne.
           ++ destruct (String.eqb c0 c); [reflexivity|exact IH].
    + rewrite IH; try assumption.
      * now rewrite converted_absent.
      * intros c s Hin Hg. apply (Hconv c s (or_intror Hin) Hg).
Qed.

(** When the first column that does not convert is [col], the loop raises
    there and leaves the columns before it converted. *)
Lemma convert_frame_raise pre col post f d ser e :
  List.NoDup (pre ++ col :: post) -> List.NoDup (DF.columns d) ->
  convertible pre f d ->
  DF.getitem col d = Some ser -> f ser = Raise e ->
  convert_frame (pre ++ col :: post) f d = (converted pre f d, Raise e).
Proof.
  intros Hcols Hnd Hconv Hget Hf.
  rewrite convert_frame_app.
  apply List.NoDup_app_remove_r in Hcols as Hpre.
  rewrite (convert_frame_ok pre f d Hpre Hnd Hconv). simpl.
  rewrite columns_converted.
  assert (DF.elem col (DF.columns d) = true) as -> by (apply getitem_elem; eauto).
  rewrite getitem_converted, Hget.
  assert (DF.elem col pre = false) as ->.
  { apply elem_false. intros Hin.
    apply List.NoDup_remove_2 in Hcols. apply Hcols.
    apply in_or_app. now left. }
  now rewrite Hf.
Qed.

(** * What a load does *)

Lemma validate_required_some required w df d :
  heap w !! df = Some d ->
  validate_required required df w
  = (w, match missing_cols required (DF.columns d) with
        | [] => Return tt
        | missing => Raise (ValueError (missing_message missing))
        end).
Proof.
  intros H. unfold validate_required.
  rewrite (bind_return _ _ _ _ _ (df_columns_some w df d H)).
  now destruct (missing_cols required (DF.columns d)).
Qed.

Lemma df_index_convert_frame cols f : forall d,
  df_index (fst (convert_frame cols f d)) = df_index d.
Proof.
  induction cols as [|col rest IH]; intros d; simpl; [reflexivity|].
  destruct (DF.elem col (DF.columns d)); [|apply IH].
  destruct (DF.getitem col d) as [ser|]; [|reflexivity].
  destruct (f ser); [|reflexivity].
  now rewrite IH.
Qed.

Lemma log_loaded_some w df d what :
  heap w !! df = Some d ->
  log_loaded df what w
  = ({| heap := heap w; self := self w;
        logged := (logged w ++ [LogInfo ("Loaded " ++ Str.of_nat (df_index d)
                                          ++ " " ++ what ++ " records")])%list |},
     Return tt).
Proof.
  intros H. unfold log_loaded.
  now rewrite (bind_return _ _ _ _ _ (df_len_some w df d H)).
Qed.

Lemma store_and_log k w df d :
  heap w !! df = Some d ->
  (let* _ := match k with
             | Bond => set_bond_details df
             | Cashflow => set_cashflow_details df
             | Company => set_company_insights df
             end in log_loaded df (kind_name k)) w
  = ({| heap := heap w; self := with_stored k df (self w);
        logged := (logged w ++ [LogInfo (loaded_message k (df_index d))])%list |},
     Return tt).
Proof.
  intros H.
  destruct k;
    (erewrite bind_return;
     [|unfold set_bond_details, set_cashflow_details, set_company_insights,
         get_self, set_self, bind; reflexivity]);
    rewrite (log_loaded_some _ df d) by exact H; reflexivity.
Qed.

Lemma try_reraise_run {A : Type} (body : M A) prefix w :
  try_reraise body (logger_error prefix) w
  = match body w with
    | (w', Return a) => (w', Return a)
    | (w', Raise e) =>
        ({| heap := heap w'; self := self w';
            logged := (logged w' ++ [LogError prefix e])%list |}, Raise e)
    end.
Proof.
  unfold try_reraise. destruct (body w) as [w' [a|e]]; reflexivity.
Qed.

(** The conversions of a load, over the world. *)
Lemma conversions_run k w df d :
  heap w !! df = Some d ->
  match k with
  | Bond => convert_columns bond_json_columns parse_json df
  | Cashflow =>
      let* _ := convert_columns date_columns parse_dates df in
      convert_columns numeric_columns parse_numbers df
  | Company => convert_columns company_json_columns parse_json df
  end w
  = (with_heap (<[df := fst (load_frame k d)]> (heap w)) w, snd (load_frame k d)).
Proof.
  intros Hd. destruct k; cbn [load_frame].
  - now apply convert_columns_frame.
  - pose proof (convert_columns_frame date_columns parse_dates df w d Hd) as H1.
    destruct (convert_frame date_columns parse_dates d) as [d1 [[]|e]];
      cbn [fst snd] in *.
    + rewrite (bind_return _ _ _ _ _ H1).
      rewrite (convert_columns_frame _ _ _ _ d1)
        by (unfold with_heap; simpl; apply lookup_insert_eq).
      unfold with_heap. simpl. now rewrite insert_insert_eq.
    + now rewrite (bind_raise _ _ _ _ _ H1).
  - now apply convert_columns_frame.
Qed.

Lemma bind_ext {A B : Type} (m : M A) (k k' : A -> M B) w :
  (forall a w', k a w' = k' a w') -> bind m k w = bind m k' w.
Proof. intros H. unfold bind. destruct (m w) as [w' [a|e]]; [apply H|reflexivity]. Qed.

Lemma bind_assoc {A B C : Type} (m : M A) (k1 : A -> M B) (k2 : B -> M C) w :
  bind (bind m k1) k2 w = bind m (fun a => bind (k1 a) k2) w.
Proof. unfold bind. destruct (m w) as [w' [a|e]]; reflexivity. Qed.

(** A load of a frame that exists ends in one of three ways: the required
    columns are not all there; a conversion raises; or the frame is stored
    and the number of rows logged. *)
Lemma load_data_run k df w d :
  heap w !! df = Some d -> load_data k df w = load_result k df d w.
Proof.
  intros Hd. unfold load_result.
  assert (Hbody :
    load_data k df w
    = try_reraise
        (let* _ := validate_required (required_columns k) df in
         let* _ := match k with
                   | Bond => convert_columns bond_json_columns parse_json df
                   | Cashflow =>
                       let* _ := convert_columns date_columns parse_dates df in
                       convert_columns numeric_columns parse_numbers df
                   | Company => convert_columns company_json_columns parse_json df
                   end in
         let* _ := match k with
                   | Bond => set_bond_details df
                   | Cashflow => set_cashflow_details df
                   | Company => set_company_insights df
                   end in log_loaded df (kind_name k))
        (logger_error (error_prefix k)) w).
  { destruct k; try reflexivity.
    cbn [load_data]. unfold load_cashflow_data.
    rewrite !try_reraise_run. cbn [required_columns kind_name error_prefix].
    match goal with
    | |- match ?b1 with _ => _ end = match ?b2 with _ => _ end =>
        assert (E : b1 = b2)
    end.
    { apply bind_ext. intros a w'. symmetry. apply bind_assoc. }
    now rewrite E. }
  rewrite Hbody, try_reraise_run. clear Hbody.
  unfold bind at 1. rewrite (validate_required_some _ _ _ _ Hd).
  destruct (missing_cols (required_columns k) (DF.columns d)) as [|m ms];
    [|reflexivity].
  unfold bind at 1. rewrite (conversions_run k w df d Hd).
  destruct (load_frame k d) as [d' [[]|e]]; cbn [fst snd]; [|reflexivity].
  rewrite (store_and_log k _ df d')
    by (unfold with_heap; simpl; apply lookup_insert_eq).
  reflexivity.
Qed.

Lemma load_data_no_frame k df w :
  heap w !! df = None ->
  load_data k df w
  = ({| heap := heap w; self := self w;
        logged := (logged w ++ [LogError (error_prefix k) AttributeError])%list |},
     Raise AttributeError).
Proof.
  intros H.
  assert (Hv : forall req, validate_required req df w = (w, Raise AttributeError)).
  { intros req. unfold validate_required, df_columns.
    erewrite bind_raise; [reflexivity|].
    erewrite bind_raise; [reflexivity|].
    unfold deref. now rewrite H. }
  destruct k; cbn [load_data];
    unfold load_bond_data, load_cashflow_data, load_company_data;
    rewrite try_reraise_run; erewrite bind_raise by apply Hv; reflexivity.
Qed.

(** Either every named column converts, or there is a first one that does
    not. *)
Lemma first_failure f d : forall cols,
  convertible cols f d
  \/ exists pre col post ser e,
       cols = (pre ++ col :: post)%list /\ convertible pre f d
       /\ DF.getitem col d = Some ser /\ f ser = Raise e.
Proof.
  induction cols as [|col rest IH].
  - left. intros c s [].
  - destruct (DF.getitem col d) as [ser|] eqn:Eget.
    + destruct (f ser) as [ser'|e] eqn:Ef.
      * destruct IH as [IH|(pre & c & post & s & e & -> & Hpre & Hget & Hf)].
        -- left. intros c s [<-|Hin] Hg.
           ++ rewrite Eget in Hg. inversion Hg; subst. eauto.
           ++ eauto.
        -- right. exists (col :: pre), c, post, s, e. repeat split; try assumption.
           intros c' s' [<-|Hin] Hg.
           ++ rewrite Eget in Hg. inversion Hg; subst. eauto.
           ++ eauto.
      * right. exists [], col, rest, ser, e. repeat split; try assumption.
        intros c s [].
    + destruct IH as [IH|(pre & c & post & s & e & -> & Hpre & Hget & Hf)].
      * left. intros c s [<-|Hin] Hg; [congruence|eauto].
      * right. exists (col :: pre), c, post, s, e. repeat split; try assumption.
        intros c' s' [<-|Hin] Hg; [congruence|eauto].
Qed.

Lemma series_apply_raise ser e :
  series_apply json_or_empty ser = Raise e -> e = JSONDecodeError.
Proof.
  induction ser as [|x ser IH]; simpl; [discriminate|].
  destruct (json_or_empty x) as [y|e'] eqn:Ex.
  - destruct (series_apply json_or_empty ser); [discriminate|].
    intros H. inversion H; subst. now apply IH.
  - intros H. inversion H; subst.
    destruct x; simpl in Ex; try discriminate.
    destruct (Str.truthy (Str.strip s)); [|discriminate].
    destruct (Json.json_loads s); [discriminate|]. now inversion Ex.
Qed.

Ltac nodup_list :=
  repeat (apply List.NoDup_cons; [simpl; intuition discriminate|]);
  apply List.NoDup_nil.

Lemma NoDup_bond_json_columns : List.NoDup bond_json_columns.
Proof. unfold bond_json_columns. nodup_list. Qed.

Lemma NoDup_company_json_columns : List.NoDup company_json_columns.
Proof. unfold company_json_columns. nodup_list. Qed.

Lemma NoDup_date_columns : List.NoDup date_columns.
Proof. unfold date_columns. nodup_list. Qed.

Lemma NoDup_numeric_columns : List.NoDup numeric_columns.
Proof. unfold numeric_columns. nodup_list. Qed.

Lemma NoDup_json_columns k : List.NoDup (json_columns k).
Proof.
  destruct k; simpl;
    [apply NoDup_bond_json_columns | apply List.NoDup_nil
     | apply NoDup_company_json_columns].
Qed.

Lemma convertible_total cols (g : Series -> Series) d :
  convertible cols (fun ser => Return (g ser)) d.
Proof. intros c s _ _. eauto. Qed.

(** The conversions of a load on a well-formed frame: all of them are
    done and the frame is the normalised one, or a structured-text column
    holds malformed text, the columns before it are converted and
    [json.JSONDecodeError] is raised. *)
Lemma load_frame_cases k d :
  DF.wf d ->
  (convertible (json_columns k) parse_json d
   /\ load_frame k d = (normalized k d, Return tt))
  \/ exists pre col post ser,
       json_columns k = (pre ++ col :: post)%list
       /\ convertible pre parse_json d
       /\ DF.getitem col d = Some ser
       /\ parse_json ser = Raise JSONDecodeError
       /\ load_frame k d = (converted pre parse_json d, Raise JSONDecodeError).
Proof.
  intros [Hnd _].
  destruct (first_failure parse_json d (json_columns k))
    as [Hall|(pre & col & post & ser & e & Hcols & Hpre & Hget & Hf)].
  - left. split; [exact Hall|].
    destruct k; cbn [load_frame normalized json_columns] in *.
    + apply convert_frame_ok; auto using NoDup_bond_json_columns.
    + unfold parse_dates, parse_numbers.
      rewrite convert_frame_ok;
        auto using NoDup_date_columns, convertible_total.
      rewrite convert_frame_ok;
        auto using NoDup_numeric_columns, convertible_total.
      now rewrite columns_converted.
    + apply convert_frame_ok; auto using NoDup_company_json_columns.
  - right.
    assert (e = JSONDecodeError) as -> by (eapply series_apply_raise; exact Hf).
    exists pre, col, post, ser. repeat split; try assumption.
    pose proof (NoDup_json_columns k) as Hk. rewrite Hcols in Hk.
    destruct k; cbn [load_frame json_columns] in *.
    + rewrite Hcols. now apply (convert_frame_raise pre col post parse_json d ser).
    + destruct pre; discriminate.
    + rewrite Hcols. now apply (convert_frame_raise pre col post parse_json d ser).
Qed.

(** * Claims about loading *)

Ltac wf_frame :=
  split;
  [unfold DF.columns; simpl; nodup_list
  |simpl; repeat (apply List.Forall_cons; [reflexivity|]); apply List.Forall_nil].

Lemma convert_frame_raise_from cols f e : forall d,
  snd (convert_frame cols f d) = Raise e -> exists ser, f ser = Raise e.
Proof.
  induction cols as [|col rest IH]; intros d; simpl; [discriminate|].
  destruct (DF.elem col (DF.columns d)) eqn:E; [|apply IH].
  apply getitem_elem in E as [ser Hget]. rewrite Hget.
  destruct (f ser) as [ser'|e'] eqn:Ef; [apply IH|].
  simpl. intros H. inversion H; subst. eauto.
Qed.

Lemma load_frame_outcome k d :
  snd (load_frame k d) = Return tt \/ snd (load_frame k d) = Raise JSONDecodeError.
Proof.
  destruct (snd (load_frame k d)) as [[]|e] eqn:E; [now left|right].
  f_equal. destruct k; cbn [load_frame] in E.
  - apply convert_frame_raise_from in E as [ser H].
    now apply series_apply_raise in H.
  - destruct (convert_frame date_columns parse_dates d) as [d1 [[]|e1]] eqn:E1.
    + apply convert_frame_raise_from in E as [ser H]. discriminate.
    + assert (H : snd (convert_frame date_columns parse_dates d) = Raise e1)
        by now rewrite E1.
      apply convert_frame_raise_from in H as [ser H]. discriminate.
  - apply convert_frame_raise_from in E as [ser H].
    now apply series_apply_raise in H.
Qed.

Lemma missing_cols_spec required cols col :
  In col (missing_cols required cols) <-> In col required /\ ~ In col cols.
Proof.
  unfold missing_cols. rewrite filter_In, negb_true_iff, elem_false. tauto.
Qed.

(** C5. A load of a table that lacks some required columns of its kind
    raises [ValueError] with the message that lists exactly the required
    columns absent from the table, in the order of the requirement, and
    changes neither the heap nor the loader; a load of a table that has
    them all raises no such error: it returns, or it raises
    [json.JSONDecodeError]. *)
Theorem C5_missing_required_columns (k : kind) (df : nat) (w : World)
  (d : DataFrame) :
  heap w !! df = Some d ->
  let missing := missing_cols (required_columns k) (DF.columns d) in
  (forall col, In col missing
               <-> In col (required_columns k) /\ ~ In col (DF.columns d))
  /\ (missing <> [] ->
      snd (load_data k df w) = Raise (ValueError (missing_message missing))
      /\ heap (fst (load_data k df w)) = heap w
      /\ self (fst (load_data k df w)) = self w)
  /\ (missing = [] ->
      snd (load_data k df w) = Return tt
      \/ snd (load_data k df w) = Raise JSONDecodeError).
Proof.
  intros Hd missing. split; [|split].
  - intros col. apply missing_cols_spec.
  - intros Hne. rewrite (load_data_run k df w d Hd). unfold load_result.
    fold missing. destruct missing; [congruence|]. simpl. auto.
  - intros Hnil. rewrite (load_data_run k df w d Hd). unfold load_result.
    fold missing. rewrite Hnil.
    destruct (load_frame_outcome k d) as [H|H];
      destruct (load_frame k d) as [d' o]; simpl in H; subst o; simpl; auto.
Qed.

Lemma C5_witness :
  heap (fresh_world [(0, cashflows_incomplete)]) !! 0 = Some cashflows_incomplete
  /\ snd (load_data Cashflow 0 (fresh_world [(0, cashflows_incomplete)]))
     = Raise (ValueError "Missing required columns: cash_flow_date, cash_flow_amount").
Proof.
  split; [reflexivity|].
  apply (C5_missing_required_columns Cashflow 0
           (fresh_world [(0, cashflows_incomplete)]) cashflows_incomplete eq_refl).
  discriminate.
Defined.

Lemma stored_with_stored k k' df s :
  stored k' (with_stored k df s) = if decide (k' = k) then Some df else stored k' s.
Proof. destruct k, k'; reflexivity. Qed.

(** What a load that raises leaves behind: the loader as it was, every
    other object of the heap as it was, and one more error record. *)
Lemma load_raise_frame k df w e :
  snd (load_data k df w) = Raise e ->
  self (fst (load_data k df w)) = self w
  /\ (forall r, r <> df -> heap (fst (load_data k df w)) !! r = heap w !! r)
  /\ logged (fst (load_data k df w))
     = (logged w ++ [LogError (error_prefix k) e])%list.
Proof.
  destruct (heap w !! df) as [d|] eqn:Hd.
  - rewrite (load_data_run k df w d Hd). unfold load_result.
    destruct (missing_cols (required_columns k) (DF.columns d)) as [|m ms].
    + destruct (load_frame k d) as [d' [[]|e']]; simpl; [discriminate|].
      intros H. inversion H; subst. repeat split.
      intros r Hr. now apply lookup_insert_ne.
    + simpl. intros H. inversion H; subst. repeat split.
  - rewrite (load_data_no_frame k df w Hd). simpl.
    intros H. inversion H; subst. repeat split.
Qed.

(** What a load that returns leaves behind. *)
Lemma load_return_frame k df w d :
  heap w !! df = Some d -> DF.wf d ->
  snd (load_data k df w) = Return tt ->
  fst (load_data k df w)
  = {| heap := <[df := normalized k d]> (heap w);
       self := with_stored k df (self w);
       logged := (logged w ++ [LogInfo (loaded_message k (df_index d))])%list |}.
Proof.
  intros Hd Hwf. rewrite (load_data_run k df w d Hd). unfold load_result.
  destruct (missing_cols (required_columns k) (DF.columns d)) as [|m ms];
    [|discriminate].
  destruct (load_frame_cases k d Hwf)
    as [[_ ->]|(pre & col & post & ser & _ & _ & _ & _ & ->)];
    [|discriminate].
  intros _. simpl. destruct k; reflexivity.
Qed.

Lemma load_raise_stored_table k df w e :
  snd (load_data k df w) = Raise e ->
  stored k (self w) <> Some df ->
  stored_table k (fst (load_data k df w)) = stored_table k w.
Proof.
  intros He Hne. destruct (load_raise_frame k df w e He) as (Hs & Hh & _).
  unfold stored_table. rewrite Hs.
  destruct (stored k (self w)) as [r|]; [|reflexivity].
  apply Hh. congruence.
Qed.

(** C3 (amended). A load that raises leaves the loader's three attributes
    as they were, propagates the exception it logged, and changes no
    object of the heap other than its input; so the stored table is what
    it was before the call whenever the input is not the stored object
    itself.  A load that returns stores a reference to its input, which by
    then is the normalised input. *)
Theorem C3_failed_load_keeps_reference (k : kind) (df : nat) (w : World) :
  (forall e, snd (load_data k df w) = Raise e ->
     self (fst (load_data k df w)) = self w
     /\ logged (fst (load_data k df w))
        = (logged w ++ [LogError (error_prefix k) e])%list
     /\ (stored k (self w) <> Some df ->
         stored_table k (fst (load_data k df w)) = stored_table k w))
  /\ (forall d, heap w !! df = Some d -> DF.wf d ->
      snd (load_data k df w) = Return tt ->
      stored k (self (fst (load_data k df w))) = Some df
      /\ stored_table k (fst (load_data k df w)) = Some (normalized k d)).
Proof.
  split.
  - intros e He. destruct (load_raise_frame k df w e He) as (Hs & Hh & Hl).
    repeat split; try assumption.
    now apply (load_raise_stored_table k df w e).
  - intros d Hd Hwf Hret.
    rewrite (load_return_frame k df w d Hd Hwf Hret).
    unfold stored_table. cbn [self heap].
    rewrite stored_with_stored. rewrite decide_True by reflexivity.
    split; [reflexivity|]. apply lookup_insert_eq.
Qed.

Lemma bonds_example_wf : DF.wf bonds_example.
Proof. wf_frame. Qed.

Lemma C3_witness :
  heap (fresh_world [(0, bonds_example)]) !! 0 = Some bonds_example
  /\ DF.wf bonds_example
  /\ snd (load_data Bond 0 (fresh_world [(0, bonds_example)])) = Return tt
  /\ stored_table Bond (fst (load_data Bond 0 (fresh_world [(0, bonds_example)])))
     = Some (normalized Bond bonds_example).
Proof.
  split; [reflexivity|]. split; [wf_frame|]. split; [reflexivity|].
  apply (proj2 (C3_failed_load_keeps_reference Bond 0
                  (fresh_world [(0, bonds_example)])) bonds_example).
  - reflexivity.
  - wf_frame.
  - reflexivity.
Defined.

(** The claim C3 as stated fails: the bond table is loaded, then loaded
    again from the same object.  The second call raises on the text the
    first call left in [coupon_details], after it has emptied the parsed
    [issuer_details] of the stored table. *)
Lemma C3_counterexample :
  let w0 := fresh_world [(0, bonds_example)] in
  let w1 := fst (load_data Bond 0 w0) in
  let w2 := fst (load_data Bond 0 w1) in
  snd (load_data Bond 0 w0) = Return tt
  /\ snd (load_data Bond 0 w1) = Raise JSONDecodeError
  /\ stored_table Bond w2 <> stored_table Bond w1.
Proof.
  split; [reflexivity|]. split; [reflexivity|].
  vm_compute. discriminate.
Qed.

(** C9 (amended). Of two successful loads of one kind, the second makes
    the loader refer to its own input, which is then the normalised second
    input and nothing more; the attributes of the two other kinds are as
    they were, and the table of another kind is as it was whenever it is
    not the very object that was loaded. *)
Theorem C9_second_load_replaces (k : kind) (df1 df2 : nat) (w0 w1 w2 : World)
  (d2 : DataFrame) :
  load_data k df1 w0 = (w1, Return tt) ->
  heap w1 !! df2 = Some d2 -> DF.wf d2 ->
  load_data k df2 w1 = (w2, Return tt) ->
  stored k (self w1) = Some df1
  /\ stored k (self w2) = Some df2
  /\ stored_table k w2 = Some (normalized k d2)
  /\ forall k', k' <> k ->
       stored k' (self w2) = stored k' (self w1)
       /\ (stored k' (self w1) <> Some df2 ->
           stored_table k' w2 = stored_table k' w1).
Proof.
  intros H1 Hd2 Hwf H2.
  assert (Hs1 : stored k (self w1) = Some df1).
  { destruct (heap w0 !! df1) as [d1|] eqn:Hd1.
    - rewrite (load_data_run k df1 w0 d1 Hd1) in H1. unfold load_result in H1.
      destruct (missing_cols (required_columns k) (DF.columns d1));
        [|discriminate].
      destruct (load_frame k d1) as [d' [[]|e]]; [|discriminate].
      inversion H1; subst w1. cbn [self]. rewrite stored_with_stored.
      now rewrite decide_True.
    - rewrite (load_data_no_frame k df1 w0 Hd1) in H1. discriminate. }
  assert (Hret : snd (load_data k df2 w1) = Return tt) by now rewrite H2.
  pose proof (load_return_frame k df2 w1 d2 Hd2 Hwf Hret) as Hw2.
  rewrite H2 in Hw2. cbn [fst] in Hw2. subst w2.
  split; [exact Hs1|]. unfold stored_table. cbn [self heap].
  split; [|split].
  - rewrite stored_with_stored. now rewrite decide_True.
  - rewrite stored_with_stored, decide_True by reflexivity.
    apply lookup_insert_eq.
  - intros k' Hk. rewrite stored_with_stored, decide_False by exact Hk.
    split; [reflexivity|]. intros Hne.
    destruct (stored k' (self w1)) as [r|]; [|reflexivity].
    apply lookup_insert_ne. congruence.
Qed.

Lemma C9_witness :
  stored Bond (self (fst (load_data Bond 1
                 (fst (load_data Bond 0
                    (fresh_world [(0, bonds_example); (1, combined_example)]))))))
  = Some 1
  /\ stored_table Bond
       (fst (load_data Bond 1
          (fst (load_data Bond 0
             (fresh_world [(0, bonds_example); (1, combined_example)])))))
     = Some (normalized Bond combined_example).
Proof.
  pose proof (C9_second_load_replaces Bond 0 1
    (fresh_world [(0, bonds_example); (1, combined_example)])
    (fst (load_data Bond 0
            (fresh_world [(0, bonds_example); (1, combined_example)])))
    (fst (load_data Bond 1
            (fst (load_data Bond 0
                    (fresh_world [(0, bonds_example); (1, combined_example)])))))
    combined_example) as H.
  destruct H as (_ & H2 & H3 & _).
  - reflexivity.
  - reflexivity.
  - wf_frame.
  - reflexivity.
  - split; assumption.
Defined.

(** The claim C9 as stated fails: one frame is loaded as the company table
    and then as the bond table.  The bond load parses [issuer_details] in
    place, so the stored company table is no longer what it was. *)
Lemma C9_counterexample :
  let w0 := fresh_world [(0, combined_example)] in
  let w1 := fst (load_data Company 0 w0) in
  let w2 := fst (load_data Bond 0 w1) in
  snd (load_data Company 0 w0) = Return tt
  /\ snd (load_data Bond 0 w1) = Return tt
  /\ stored_table Company w2 <> stored_table Company w1.
Proof.
  split; [reflexivity|]. split; [reflexivity|].
  vm_compute. discriminate.
Qed.

(** C10 (amended). A load works on the object it is given.  When it
    returns, the caller's frame is the normalised frame.  When it raises
    [json.JSONDecodeError], the structured-text columns before the first
    malformed one are converted in the caller's frame, that one and the
    later ones are as they were, and the loader's attributes are as they
    were; the stored table is then unchanged if it is another object than
    the input. *)
Theorem C10_normalised_in_place (k : kind) (df : nat) (w : World)
  (d : DataFrame) :
  heap w !! df = Some d -> DF.wf d ->
  (snd (load_data k df w) = Return tt ->
   heap (fst (load_data k df w)) !! df = Some (normalized k d))
  /\ (snd (load_data k df w) = Raise JSONDecodeError ->
      exists pre col post ser,
        json_columns k = (pre ++ col :: post)%list
        /\ convertible pre parse_json d
        /\ DF.getitem col d = Some ser
        /\ parse_json ser = Raise JSONDecodeError
        /\ heap (fst (load_data k df w)) !! df
           = Some (converted pre parse_json d)
        /\ self (fst (load_data k df w)) = self w
        /\ (stored k (self w) <> Some df ->
            stored_table k (fst (load_data k df w)) = stored_table k w)).
Proof.
  intros Hd Hwf. split.
  - intros Hret. rewrite (load_return_frame k df w d Hd Hwf Hret).
    cbn [heap]. apply lookup_insert_eq.
  - intros Hraise.
    destruct (load_raise_frame k df w _ Hraise) as (Hs & _ & _).
    pose proof (load_raise_stored_table k df w _ Hraise) as Hst.
    revert Hraise Hs Hst.
    rewrite (load_data_run k df w d Hd). unfold load_result.
    destruct (missing_cols (required_columns k) (DF.columns d)) as [|m ms];
      [|discriminate].
    destruct (load_frame_cases k d Hwf)
      as [[_ ->]|(pre & col & post & ser & Hc & Hpre & Hget & Hf & ->)];
      [discriminate|].
    cbn [fst snd heap self]. intros _ Hs Hst.
    exists pre, col, post, ser. repeat split; try assumption.
    apply lookup_insert_eq.
Qed.

Lemma C10_witness :
  heap (fst (load_data Bond 0 (fresh_world [(0, bonds_example)]))) !! 0
  = Some (normalized Bond bonds_example).
Proof.
  apply (proj1 (C10_normalised_in_place Bond 0
                  (fresh_world [(0, bonds_example)]) bonds_example
                  eq_refl bonds_example_wf)).
  reflexivity.
Defined.

(** The claim C10 as stated fails in its last part: the company table is
    loaded, then loaded again from the same object.  The second call
    raises on [income_statement] after it has emptied the parsed
    [key_metrics]; the converted column is in the caller's frame, which is
    the stored table, so the stored table has changed. *)
Lemma C10_counterexample :
  let d := {| df_index := 1;
              df_data := [("company_name", [VStr "Tata Steel"]);
                          ("company_industry", [VStr "Metals"]);
                          ("key_metrics", [VStr (Json.q "{'pe': 12}")]);
                          ("income_statement", [VStr (Json.q "'{bad'")])] |} in
  let w1 := fst (load_data Company 0 (fresh_world [(0, d)])) in
  let w2 := fst (load_data Company 0 w1) in
  snd (load_data Company 0 (fresh_world [(0, d)])) = Return tt
  /\ snd (load_data Company 0 w1) = Raise JSONDecodeError
  /\ DF.getitem "key_metrics" <$> (heap w1 !! 0)
     = Some (Some [VDict [("pe", VInt 12)]])
  /\ DF.getitem "key_metrics" <$> (heap w2 !! 0) = Some (Some [VDict []])
  /\ stored_table Company w2 <> stored_table Company w1.
Proof.
  split; [reflexivity|]. split; [reflexivity|].
  split; [reflexivity|]. split; [reflexivity|].
  vm_compute. discriminate.
Qed.

(** * The stored table is a well-formed table of its kind *)

Lemma series_apply_length f ser ser' :
  series_apply f ser = Return ser' -> length ser' = length ser.
Proof.
  revert ser'. induction ser as [|x ser IH]; intros ser'; simpl.
  - intros H. now inversion H.
  - destruct (f x); [|discriminate].
    destruct (series_apply f ser) as [ys|]; [|discriminate].
    intros H. inversion H; subst. simpl. f_equal. now apply IH.
Qed.

Lemma converted_wf cols f d :
  (forall ser ser', f ser = Return ser' -> length ser' = length ser) ->
  DF.wf d -> DF.wf (converted cols f d).
Proof.
  intros Hf [Hnd Hlen]. split.
  - now rewrite columns_converted.
  - unfold converted. cbn [df_index df_data]. apply List.Forall_map.
    eapply List.Forall_impl; [|exact Hlen].
    intros [c ser] Hs. cbn [fst snd] in *.
    destruct (DF.elem c cols); [|exact Hs]. cbn [snd].
    destruct (f ser) as [ser'|] eqn:E; [|exact Hs].
    now rewrite (Hf ser ser' E).
Qed.

Lemma normalized_wf k d : DF.wf d -> DF.wf (normalized k d).
Proof.
  intros Hwf. destruct k; cbn [normalized].
  - apply converted_wf; [apply series_apply_length|exact Hwf].
  - apply converted_wf.
    + intros ser ser' H. inversion H. unfold Numeric.to_numeric.
      apply length_map.
    + apply converted_wf; [|exact Hwf].
      intros ser ser' H. inversion H. unfold Datetime.to_datetime.
      apply length_map.
  - apply converted_wf; [apply series_apply_length|exact Hwf].
Qed.

Lemma columns_normalized k d : DF.columns (normalized k d) = DF.columns d.
Proof. destruct k; cbn [normalized]; now rewrite ?columns_converted. Qed.

(** The table a load has stored is well formed and has every required
    column of its kind. *)
Lemma stored_table_invariant k df w d :
  heap w !! df = Some d -> DF.wf d ->
  snd (load_data k df w) = Return tt ->
  exists d',
    stored_table k (fst (load_data k df w)) = Some d'
    /\ DF.wf d'
    /\ forall col, In col (required_columns k) -> In col (DF.columns d').
Proof.
  intros Hd Hwf Hret. exists (normalized k d).
  rewrite (load_return_frame k df w d Hd Hwf Hret).
  unfold stored_table. cbn [self heap].
  rewrite stored_with_stored, decide_True by reflexivity.
  split; [apply lookup_insert_eq|]. split; [now apply normalized_wf|].
  intros col Hcol. rewrite columns_normalized.
  revert Hret. rewrite (load_data_run k df w d Hd). unfold load_result.
  destruct (missing_cols (required_columns k) (DF.columns d)) as [|m ms] eqn:Em;
    [|discriminate].
  intros _.
  destruct (in_dec string_dec col (DF.columns d)) as [Hin|Hnot]; [exact Hin|].
  assert (In col (missing_cols (required_columns k) (DF.columns d)))
    by (apply missing_cols_spec; auto).
  rewrite Em in H. contradiction.
Qed.

(** * Structured-text cells *)








(** * Rows of a filtered frame *)

Lemma mask_filter_nil {A : Type} (mask : list bool) :
  DF.mask_filter mask (@nil A) = [].
Proof. now destruct mask as [|[] m]. Qed.

Lemma heads_filter_true m (data : list (string * Series)) n :
  Forall (fun cs : string * Series => length (snd cs) = S n) data ->
  DF.heads (map (fun cs : string * Series =>
                   (fst cs, DF.mask_filter (true :: m) (snd cs))) data)
  = DF.heads data.
Proof.
  intros H. unfold DF.heads. rewrite List.map_map.
  apply map_ext_in. intros [c s] Hin. simpl.
  rewrite List.Forall_forall in H. specialize (H _ Hin). simpl in H.
  destruct s; [discriminate|reflexivity].
Qed.

Lemma tails_filter b m (data : list (string * Series)) n :
  Forall (fun cs : string * Series => length (snd cs) = S n) data ->
  (if b : bool
   then DF.tails (map (fun cs : string * Series =>
                         (fst cs, DF.mask_filter (b :: m) (snd cs))) data)
   else map (fun cs : string * Series =>
               (fst cs, DF.mask_filter (b :: m) (snd cs))) data)
  = map (fun cs : string * Series => (fst cs, DF.mask_filter m (snd cs)))
      (DF.tails data).
Proof.
  intros H. unfold DF.tails. destruct b; rewrite !List.map_map;
    apply map_ext_in; intros [c s] Hin; simpl;
    rewrite List.Forall_forall in H; specialize (H _ Hin); simpl in H;
    (destruct s; [discriminate|reflexivity]).
Qed.

Lemma tails_length (data : list (string * Series)) n :
  Forall (fun cs : string * Series => length (snd cs) = S n) data ->
  Forall (fun cs : string * Series => length (snd cs) = n) (DF.tails data).
Proof.
  intros H. unfold DF.tails. apply List.Forall_map.
  eapply List.Forall_impl; [|exact H].
  intros [c s] Hs. simpl in *. destruct s; [discriminate|]. now inversion Hs.
Qed.

Lemma rows_of_S n (data : list (string * Series)) :
  DF.rows_of (S n) data = DF.heads data :: DF.rows_of n (DF.tails data).
Proof. reflexivity. Qed.

Lemma mask_filter_cons {A : Type} (b : bool) m (x : A) l :
  DF.mask_filter (b :: m) (x :: l)
  = if b then x :: DF.mask_filter m l else DF.mask_filter m l.
Proof. reflexivity. Qed.

(** The rows of [df[mask]] are the rows of [df] at which the mask holds. *)
Lemma rows_of_filter mask : forall (data : list (string * Series)) n,
  length mask = n ->
  Forall (fun cs : string * Series => length (snd cs) = n) data ->
  DF.rows_of (DF.count_true mask)
    (map (fun cs : string * Series => (fst cs, DF.mask_filter mask (snd cs))) data)
  = DF.mask_filter mask (DF.rows_of n data).
Proof.
  induction mask as [|b m IH]; intros data n Hlen Hall.
  - subst n. reflexivity.
  - destruct n as [|n]; [discriminate|]. injection Hlen as Hlen.
    pose proof (tails_filter b m data n Hall) as Ht.
    rewrite (rows_of_S n data), mask_filter_cons.
    destruct b.
    + change (DF.count_true (true :: m)) with (S (DF.count_true m)).
      rewrite rows_of_S, (heads_filter_true m data n Hall), Ht.
      f_equal. apply IH; [exact Hlen|now apply tails_length].
    + change (DF.count_true (false :: m)) with (DF.count_true m).
      rewrite Ht. apply IH; [exact Hlen|now apply tails_length].
Qed.

Lemma rows_of_column col : forall n (data : list (string * Series)) ser,
  DF.lookup_col col data = Some ser -> length ser = n ->
  Forall2 (fun x r => DF.row_get col r = Some x) ser (DF.rows_of n data).
Proof.
  induction n as [|n IH]; intros data ser Hl Hlen.
  - destruct ser; [constructor|discriminate].
  - destruct ser as [|x ser]; [discriminate|]. injection Hlen as Hlen.
    cbn [DF.rows_of]. constructor.
    + clear -Hl. induction data as [|[c s] data IHd]; simpl in *; [discriminate|].
      destruct (String.eqb c col); [now inversion Hl|now apply IHd].
    + apply IH; [|exact Hlen].
      clear -Hl. induction data as [|[c s] data IHd]; simpl in *; [discriminate|].
      destruct (String.eqb c col); [now inversion Hl|now apply IHd].
Qed.

Lemma mask_filter_map {A B : Type} (p : A -> bool) (q : B -> bool) l rows :
  Forall2 (fun x r => p x = q r) l rows ->
  DF.mask_filter (map p l) rows = List.filter q rows.
Proof.
  induction 1 as [|x r l rows Hx _ IH]; simpl; [reflexivity|].
  rewrite Hx, IH. reflexivity.
Qed.

Lemma rows_of_length n : forall (data : list (string * Series)),
  length (DF.rows_of n data) = n.
Proof. induction n as [|n IH]; intros data; simpl; [reflexivity|now rewrite IH]. Qed.

Lemma count_true_mask_filter {A : Type} mask : forall (l : list A),
  length l = length mask ->
  length (DF.mask_filter mask l) = DF.count_true mask.
Proof.
  unfold DF.count_true.
  induction mask as [|b m IH]; intros l Hl; [now destruct l|].
  destruct l as [|x l]; [discriminate|]. injection Hl as Hl.
  destruct b; simpl; now rewrite IH.
Qed.

(** Filtering a well-formed frame by a test on one of its columns. *)
Lemma filter_rows_by_column (d : DataFrame) col ser (p : pyobj -> bool)
  (q : row -> bool) :
  DF.wf d -> DF.getitem col d = Some ser ->
  (forall x r, DF.row_get col r = Some x -> p x = q r) ->
  DF.rows (DF.filter_rows (map p ser) d) = List.filter q (DF.rows d)
  /\ DF.columns (DF.filter_rows (map p ser) d) = DF.columns d
  /\ df_index (DF.filter_rows (map p ser) d)
     = length (List.filter q (DF.rows d)).
Proof.
  intros [_ Hlen] Hget Hpq.
  assert (Hser : length ser = df_index d).
  { unfold DF.getitem in Hget. clear -Hlen Hget.
    induction (df_data d) as [|[c s] data IH]; simpl in *; [discriminate|].
    inversion Hlen; subst.
    destruct (String.eqb c col); [inversion Hget; now subst|now apply IH]. }
  assert (Hrows : DF.mask_filter (map p ser) (DF.rows d)
                  = List.filter q (DF.rows d)).
  { apply mask_filter_map.
    eapply Forall2_impl; [apply (rows_of_column col); eassumption|].
    intros x r Hr. now apply Hpq. }
  unfold DF.rows, DF.filter_rows. cbn [df_index df_data].
  split; [|split].
  - rewrite (rows_of_filter _ _ (df_index d));
      [exact Hrows|now rewrite length_map|exact Hlen].
  - unfold DF.columns. cbn [df_data]. rewrite List.map_map. reflexivity.
  - unfold DF.rows in Hrows. rewrite <- Hrows.
    rewrite count_true_mask_filter; [reflexivity|].
    now rewrite rows_of_length, length_map.
Qed.

(** * Retrieval *)

Section Retrieval.

Variable re_compile_ci : string -> option (string -> bool).

Lemma filter_isin_run df isin w :
  filter_isin df isin w
  = (w, match heap w !! df with
        | None => Raise AttributeError
        | Some d =>
            match DF.getitem "isin" d with
            | None => Raise (KeyError "isin")
            | Some ser =>
                Return (Filtered (DF.filter_rows (map (eq_str isin) ser) d))
            end
        end).
Proof.
  unfold filter_isin. destruct (heap w !! df) as [d|] eqn:Hd.
  - destruct (DF.getitem "isin" d) as [ser|] eqn:Hg.
    + erewrite bind_return
        by (rewrite (df_getitem_some _ _ _ _ Hd), Hg; reflexivity).
      now rewrite (bind_return _ _ _ _ _ (deref_some w df d Hd)).
    + erewrite bind_raise; [reflexivity|].
      now rewrite (df_getitem_some _ _ _ _ Hd), Hg.
  - erewrite bind_raise; [reflexivity|].
    unfold df_getitem. erewrite bind_raise; [reflexivity|].
    unfold deref. now rewrite Hd.
Qed.

Lemma contains_run df pat w :
  (let* ser := df_getitem df "company_name" in
   let* mask := lift (str_contains re_compile_ci pat ser) in
   let* d := deref df in
   ret (Filtered (DF.filter_rows mask d))) w
  = (w, match heap w !! df with
        | None => Raise AttributeError
        | Some d =>
            match DF.getitem "company_name" d with
            | None => Raise (KeyError "company_name")
            | Some ser =>
                match str_contains re_compile_ci pat ser with
                | Raise e => Raise e
                | Return mask => Return (Filtered (DF.filter_rows mask d))
                end
            end
        end).
Proof.
  destruct (heap w !! df) as [d|] eqn:Hd.
  - destruct (DF.getitem "company_name" d) as [ser|] eqn:Hg.
    + erewrite bind_return
        by (rewrite (df_getitem_some _ _ _ _ Hd), Hg; reflexivity).
      destruct (str_contains re_compile_ci pat ser) as [mask|e] eqn:Em.
      * erewrite bind_return by (unfold lift; reflexivity).
        now rewrite (bind_return _ _ _ _ _ (deref_some w df d Hd)).
      * erewrite bind_raise; [reflexivity|]. unfold lift. reflexivity.
    + erewrite bind_raise; [reflexivity|].
      now rewrite (df_getitem_some _ _ _ _ Hd), Hg.
  - erewrite bind_raise; [reflexivity|].
    unfold df_getitem. erewrite bind_raise; [reflexivity|].
    unfold deref. now rewrite Hd.
Qed.

(** A retrieval changes nothing. *)
Lemma get_data_read_only k arg w : fst (get_data re_compile_ci k arg w) = w.
Proof.
  destruct k; cbn [get_data];
    unfold get_bond_details, get_cashflow_details, get_company_insights;
    (erewrite bind_return by (unfold get_self; reflexivity));
    unfold raise, ret.
  - destruct (bond_details (self w)); [|reflexivity].
    destruct arg as [s|]; [|reflexivity].
    destruct (Str.truthy s); [|reflexivity]. now rewrite filter_isin_run.
  - destruct (cashflow_details (self w)); [|reflexivity].
    destruct arg as [s|]; [|reflexivity].
    destruct (Str.truthy s); [|reflexivity]. now rewrite filter_isin_run.
  - destruct (company_insights (self w)); [|reflexivity].
    destruct arg as [s|]; [|reflexivity].
    destruct (Str.truthy s); [|reflexivity].
    now rewrite contains_run.
Qed.

End Retrieval.

Section NotLoaded.

Variable re_compile_ci : string -> option (string -> bool).

Lemma get_data_unloaded k arg w :
  stored k (self w) = None ->
  get_data re_compile_ci k arg w = (w, Raise (not_loaded k)).
Proof.
  intros H. destruct k; cbn [get_data stored] in *;
    unfold get_bond_details, get_cashflow_details, get_company_insights;
    (erewrite bind_return by (unfold get_self; reflexivity));
    rewrite H; reflexivity.
Qed.

Lemma str_contains_raise pat ser e :
  str_contains re_compile_ci pat ser = Raise e -> e = ReError.
Proof.
  unfold str_contains. destruct (re_compile_ci pat); [discriminate|].
  now intros H; inversion H.
Qed.

Lemma get_data_loaded k arg w df msg :
  stored k (self w) = Some df ->
  snd (get_data re_compile_ci k arg w) <> Raise (ValueError msg).
Proof.
  intros H. destruct k; cbn [get_data stored] in *;
    unfold get_bond_details, get_cashflow_details, get_company_insights;
    (erewrite bind_return by (unfold get_self; reflexivity));
    rewrite H; (destruct arg as [s|]; [|discriminate]);
    (destruct (Str.truthy s); [|discriminate]).
  - rewrite filter_isin_run. simpl.
    destruct (heap w !! df) as [d|]; [|discriminate].
    destruct (DF.getitem "isin" d); discriminate.
  - rewrite filter_isin_run. simpl.
    destruct (heap w !! df) as [d|]; [|discriminate].
    destruct (DF.getitem "isin" d); discriminate.
  - rewrite contains_run. simpl.
    destruct (heap w !! df) as [d|]; [|discriminate].
    destruct (DF.getitem "company_name" d) as [ser|]; [|discriminate].
    destruct (str_contains re_compile_ci s ser) as [m|e] eqn:E; [discriminate|].
    apply str_contains_raise in E. subst. discriminate.
Qed.

(** A call leaves the attribute of kind [k] as it was, unless it is a load
    of that kind that returns; then the attribute refers to a frame. *)
Lemma exec_stored k c w :
  stored k (self (exec re_compile_ci c w))
  = if loads k c w
    then match c with CallLoad _ df => Some df | _ => None end
    else stored k (self w).
Proof.
  destruct c as [k' df|k' arg|df d]; cbn [exec loads].
  - destruct (heap w !! df) as [d|] eqn:Hd.
    + rewrite (load_data_run k' df w d Hd). unfold load_result.
      destruct (missing_cols (required_columns k') (DF.columns d));
        [|now destruct (decide (k' = k))].
      destruct (load_frame k' d) as [d' [[]|e]]; cbn [fst snd self].
      * rewrite stored_with_stored.
        destruct (decide (k' = k)) as [->|Hne].
        -- now rewrite decide_True.
        -- rewrite decide_False by congruence. reflexivity.
      * now destruct (decide (k' = k)).
    + rewrite (load_data_no_frame k' df w Hd). cbn [fst snd self].
      now destruct (decide (k' = k)).
  - now rewrite get_data_read_only.
  - reflexivity.
Qed.

Lemma run_stored_some k calls : forall w,
  stored k (self w) <> None ->
  stored k (self (run re_compile_ci calls w)) <> None.
Proof.
  induction calls as [|c rest IH]; intros w Hw; cbn [run]; [exact Hw|].
  apply IH. rewrite exec_stored.
  destruct (loads k c w) eqn:E; [|exact Hw].
  destruct c; discriminate.
Qed.

(** After a session that starts with no table of kind [k], the attribute
    of kind [k] is [None] exactly when no load of that kind has returned. *)
Lemma run_stored k calls : forall w,
  stored k (self w) = None ->
  (loaded_during re_compile_ci k calls w = false
   <-> stored k (self (run re_compile_ci calls w)) = None).
Proof.
  induction calls as [|c rest IH]; intros w Hw; cbn [run loaded_during].
  - tauto.
  - pose proof (exec_stored k c w) as Hc.
    destruct (loads k c w) eqn:El; cbn [orb].
    + split; [discriminate|]. intros Hnone. exfalso.
      apply (run_stored_some k rest (exec re_compile_ci c w)); [|exact Hnone].
      rewrite Hc. destruct c; discriminate.
    + apply IH. now rewrite Hc.
Qed.

(** C6. In a session that starts from a fresh loader, a retrieval of a
    kind raises the "not loaded" [ValueError] of that kind, and does
    nothing else, as long as no load of that kind has returned; once one
    has, no retrieval of that kind raises a [ValueError]. *)
Theorem C6_not_loaded_error (k : kind) (calls : list call) (w0 : World)
  (arg : option string) :
  self w0 = init ->
  let w := run re_compile_ci calls w0 in
  (loaded_during re_compile_ci k calls w0 = false ->
   get_data re_compile_ci k arg w = (w, Raise (not_loaded k)))
  /\ (loaded_during re_compile_ci k calls w0 = true ->
      forall msg, snd (get_data re_compile_ci k arg w) <> Raise (ValueError msg)).
Proof.
  intros Hinit w.
  assert (H0 : stored k (self w0) = None) by (rewrite Hinit; now destruct k).
  pose proof (run_stored k calls w0 H0) as Hrun. fold w in Hrun.
  split.
  - intros Hnot. apply get_data_unloaded. now apply Hrun.
  - intros Hyes msg.
    destruct (stored k (self w)) as [df|] eqn:Es.
    + now apply (get_data_loaded k arg w df msg).
    + pose proof (proj2 Hrun eq_refl). congruence.
Qed.

End NotLoaded.

(** * Claims about filtered retrieval *)

Lemma truthy_nonempty s : s <> "" -> Str.truthy s = true.
Proof. destruct s; [congruence|reflexivity]. Qed.

Lemma filter_none {A : Type} (q : A -> bool) l :
  (forall r, In r l -> q r = false) -> List.filter q l = [].
Proof.
  induction l as [|x l IH]; simpl; [reflexivity|].
  intros H. rewrite (H x (or_introl eq_refl)). apply IH. auto.
Qed.

Lemma isin_is_row isin x r :
  DF.row_get "isin" r = Some x -> eq_str isin x = isin_is isin r.
Proof. intros H. unfold isin_is. now rewrite H. Qed.

(** The result of [df[df['isin'] == isin]] on a well-formed frame. *)
Lemma filter_isin_rows isin w df d :
  heap w !! df = Some d -> DF.wf d -> In "isin" (DF.columns d) ->
  exists d',
    filter_isin df isin w = (w, Return (Filtered d'))
    /\ DF.rows d' = List.filter (isin_is isin) (DF.rows d)
    /\ DF.columns d' = DF.columns d
    /\ df_index d' = length (List.filter (isin_is isin) (DF.rows d)).
Proof.
  intros Hd Hwf Hcol.
  apply elem_In, getitem_elem in Hcol as [ser Hget].
  rewrite filter_isin_run, Hd, Hget.
  exists (DF.filter_rows (map (eq_str isin) ser) d).
  split; [reflexivity|].
  apply (filter_rows_by_column d "isin" ser (eq_str isin) (isin_is isin) Hwf Hget).
  intros x r. apply isin_is_row.
Qed.

(** C1 (amended). For a well-formed stored bond (or cashflow) table with
    an [isin] column and every argument text other than the empty one,
    the retrieval returns a new frame with the columns of the stored
    table and exactly its rows whose [isin] is the argument; with no such
    row the frame has no rows, and nothing is raised. *)
Theorem C1_isin_lookup (isin : string) (w : World) (df : nat) (d : DataFrame) :
  heap w !! df = Some d -> DF.wf d -> In "isin" (DF.columns d) ->
  isin <> "" ->
  let result_of (get : option string -> M retrieved) :=
    exists d',
      get (Some isin) w = (w, Return (Filtered d'))
      /\ DF.rows d' = List.filter (isin_is isin) (DF.rows d)
      /\ DF.columns d' = DF.columns d
      /\ df_index d' = length (DF.rows d')
      /\ ((forall r, In r (DF.rows d) -> isin_is isin r = false) ->
          DF.rows d' = [] /\ df_index d' = 0) in
  (bond_details (self w) = Some df -> result_of get_bond_details)
  /\ (cashflow_details (self w) = Some df -> result_of get_cashflow_details).
Proof.
  intros Hd Hwf Hcol Hne result_of.
  destruct (filter_isin_rows isin w df d Hd Hwf Hcol)
    as (d' & Hrun & Hrows & Hcols & Hidx).
  assert (Hres : forall get,
             get (Some isin) w = filter_isin df isin w -> result_of get).
  { intros get Hget. exists d'. rewrite Hget.
    split; [exact Hrun|]. split; [exact Hrows|]. split; [exact Hcols|].
    split; [now rewrite Hrows|].
    intros Hnone. rewrite Hidx, Hrows, (filter_none _ _ Hnone). auto. }
  split; intros Hs; apply Hres.
  - unfold get_bond_details.
    erewrite bind_return by (unfold get_self; reflexivity).
    now rewrite Hs, (truthy_nonempty isin Hne).
  - unfold get_cashflow_details.
    erewrite bind_return by (unfold get_self; reflexivity).
    now rewrite Hs, (truthy_nonempty isin Hne).
Qed.

Lemma C1_witness :
  exists d',
    get_bond_details (Some "INE000B01012")
      (fst (load_data Bond 0 (fresh_world [(0, bonds_example)])))
    = (fst (load_data Bond 0 (fresh_world [(0, bonds_example)])),
       Return (Filtered d'))
    /\ DF.rows d'
       = List.filter (isin_is "INE000B01012")
           (DF.rows (normalized Bond bonds_example)).
Proof.
  destruct (C1_isin_lookup "INE000B01012"
              (fst (load_data Bond 0 (fresh_world [(0, bonds_example)])))
              0 (normalized Bond bonds_example)) as [H _].
  - reflexivity.
  - wf_frame.
  - simpl. tauto.
  - discriminate.
  - destruct (H eq_refl) as (d' & Hget & Hrows & _).
    exists d'. split; assumption.
Defined.

(** The claim C1 as stated fails for the empty text: the retrieval then
    returns the stored table itself, with all its rows, none of which has
    the empty text as [isin]. *)
Lemma C1_counterexample :
  let w := fst (load_data Bond 0 (fresh_world [(0, bonds_example)])) in
  get_bond_details (Some "") w = (w, Return (Stored 0))
  /\ List.filter (isin_is "") (retrieved_rows w (Stored 0)) = []
  /\ length (retrieved_rows w (Stored 0)) = 2%nat.
Proof. repeat split; reflexivity. Qed.

Section Company.

Variable re_compile_ci : string -> option (string -> bool).
Hypothesis re_literal : literal_law re_compile_ci.

(** C2 (amended). For a well-formed stored company table with a
    [company_name] column and every argument text that is not empty and
    has no special character of regular expressions, the retrieval returns
    a new frame with exactly the rows whose [company_name] is a text that
    contains the argument, letter case ignored; a row whose name is
    missing or is no text is left out, and nothing is raised. *)
Theorem C2_company_name_lookup (name : string) (w : World) (df : nat)
  (d : DataFrame) :
  company_insights (self w) = Some df ->
  heap w !! df = Some d -> DF.wf d -> In "company_name" (DF.columns d) ->
  name <> "" -> plain_pattern name = true ->
  exists d',
    get_company_insights re_compile_ci (Some name) w
    = (w, Return (Filtered d'))
    /\ DF.rows d' = List.filter (name_contains name) (DF.rows d)
    /\ DF.columns d' = DF.columns d
    /\ (forall r, In r (DF.rows d') ->
          exists s, DF.row_get "company_name" r = Some (VStr s)
                    /\ Str.contains_ci name s = true).
Proof.
  intros Hs Hd Hwf Hcol Hne Hplain.
  apply elem_In, getitem_elem in Hcol as [ser Hget].
  destruct (re_literal name Hplain) as (found & Hre & Hfound).
  unfold get_company_insights.
  erewrite bind_return by (unfold get_self; reflexivity).
  rewrite Hs, (truthy_nonempty name Hne), contains_run, Hd, Hget.
  unfold str_contains. rewrite Hre.
  set (p := fun x => match x with VStr s => found s | _ => false end).
  destruct (filter_rows_by_column d "company_name" ser p (name_contains name)
              Hwf Hget) as (Hrows & Hcols & _).
  { intros x r Hr. unfold name_contains, p. rewrite Hr.
    destruct x; try reflexivity. apply Hfound. }
  exists (DF.filter_rows (map p ser) d).
  split; [reflexivity|]. split; [exact Hrows|]. split; [exact Hcols|].
  intros r Hr. rewrite Hrows in Hr. apply filter_In in Hr as [_ Hr].
  unfold name_contains in Hr.
  destruct (DF.row_get "company_name" r) as [[]|]; try discriminate.
  eauto.
Qed.

End Company.

Lemma plain_engine_literal : literal_law plain_engine.
Proof. intros pat _. exists (Str.contains_ci pat). split; reflexivity. Qed.

(** * Date and numeric cells *)












Lemma chars_of_chars l : Str.chars (Str.of_chars l) = l.
Proof. apply list_ascii_of_string_of_list_ascii. Qed.



(** A cashflow load of a frame with the required columns returns. *)
Lemma load_cashflow_returns df w d :
  heap w !! df = Some d -> DF.wf d ->
  missing_cols cashflow_required_columns (DF.columns d) = [] ->
  load_data Cashflow df w
  = ({| heap := <[df := normalized Cashflow d]> (heap w);
        self := with_stored Cashflow df (self w);
        logged := (logged w
                   ++ [LogInfo (loaded_message Cashflow (df_index d))])%list |},
     Return tt).
Proof.
  intros Hd Hwf Hreq.
  rewrite (load_data_run Cashflow df w d Hd). unfold load_result.
  cbn [required_columns]. rewrite Hreq.
  destruct (load_frame_cases Cashflow d Hwf)
    as [[_ ->]|(pre & col & post & ser & Hc & _)].
  - reflexivity.
  - destruct pre; discriminate.
Qed.



Lemma cashflows_example_wf : DF.wf cashflows_example.
Proof. wf_frame. Qed.














(** * The claims on the example tables *)

Lemma companies_example_wf : DF.wf companies_example.
Proof. wf_frame. Qed.



Lemma C2_witness :
  exists d',
    get_company_insights plain_engine (Some "tata")
      (fst (load_data Company 0 (fresh_world [(0, companies_example)])))
    = (fst (load_data Company 0 (fresh_world [(0, companies_example)])),
       Return (Filtered d'))
    /\ DF.rows d'
       = List.filter (name_contains "tata")
           (DF.rows (normalized Company companies_example)).
Proof.
  destruct (C2_company_name_lookup plain_engine plain_engine_literal "tata"
              (fst (load_data Company 0 (fresh_world [(0, companies_example)])))
              0 (normalized Company companies_example))
    as (d' & Hget & Hrows & _).
  - reflexivity.
  - reflexivity.
  - wf_frame.
  - simpl. tauto.
  - discriminate.
  - reflexivity.
  - exists d'. split; assumption.
Defined.

(** The rows found for "tata" in the example table. *)
Example company_lookup_tata :
  let w := fst (load_data Company 0 (fresh_world [(0, companies_example)])) in
  option_map (DF.getitem "company_name")
    (match snd (get_company_insights plain_engine (Some "tata") w) with
     | Return r => retrieved_frame w r
     | Raise _ => None
     end)
  = Some (Some [VStr "Tata Steel"; VStr "TATA MOTORS"]).
Proof. reflexivity. Qed.

(** The claim C2 as stated fails for the empty text: the retrieval then
    returns the stored table itself, and with it the row whose
    [company_name] is missing. *)
Lemma C2_counterexample :
  let w := fst (load_data Company 0 (fresh_world [(0, companies_example)])) in
  get_company_insights plain_engine (Some "") w = (w, Return (Stored 0))
  /\ (exists r, In r (retrieved_rows w (Stored 0))
                /\ DF.row_get "company_name" r = Some VNone
                /\ name_contains "" r = false)
  /\ retrieved_rows w (Stored 0)
     <> List.filter (name_contains "") (retrieved_rows w (Stored 0)).
Proof.
  split; [reflexivity|]. split.
  - eexists. split; [right; left; reflexivity|]. split; reflexivity.
  - vm_compute. discriminate.
Qed.

(** The argument is compiled as a regular expression: a text the engine
    rejects makes the retrieval raise, whatever the table holds. *)
Lemma rejected_pattern_raises re_compile_ci pat w df d :
  company_insights (self w) = Some df -> heap w !! df = Some d ->
  In "company_name" (DF.columns d) -> pat <> "" ->
  re_compile_ci pat = None ->
  get_company_insights re_compile_ci (Some pat) w = (w, Raise ReError).
Proof.
  intros Hs Hd Hcol Hne Hre.
  apply elem_In, getitem_elem in Hcol as [ser Hget].
  unfold get_company_insights.
  erewrite bind_return by (unfold get_self; reflexivity).
  rewrite Hs, (truthy_nonempty pat Hne), contains_run, Hd, Hget.
  unfold str_contains. now rewrite Hre.
Qed.

(** And the rows it returns are those in which the compiled expression is
    found, which for an expression with special characters need not be the
    rows that contain the argument as a text. *)
Lemma pattern_rows re_compile_ci pat found w df d :
  company_insights (self w) = Some df -> heap w !! df = Some d -> DF.wf d ->
  In "company_name" (DF.columns d) -> pat <> "" ->
  re_compile_ci pat = Some found ->
  exists d',
    get_company_insights re_compile_ci (Some pat) w = (w, Return (Filtered d'))
    /\ DF.rows d'
       = List.filter (fun r => match DF.row_get "company_name" r with
                               | Some (VStr s) => found s
                               | _ => false
                               end) (DF.rows d).
Proof.
  intros Hs Hd Hwf Hcol Hne Hre.
  apply elem_In, getitem_elem in Hcol as [ser Hget].
  unfold get_company_insights.
  erewrite bind_return by (unfold get_self; reflexivity).
  rewrite Hs, (truthy_nonempty pat Hne), contains_run, Hd, Hget.
  unfold str_contains. rewrite Hre.
  set (p := fun x => match x with VStr s => found s | _ => false end).
  eexists. split; [reflexivity|].
  apply (filter_rows_by_column d "company_name" ser p _ Hwf Hget).
  intros x r Hr. rewrite Hr. reflexivity.
Qed.

Lemma C6_witness :
  get_data plain_engine Cashflow (Some "INE000A01011")
    (run plain_engine [CallLoad Bond 0; CallGet Bond None]
       (fresh_world [(0, bonds_example)]))
  = (run plain_engine [CallLoad Bond 0; CallGet Bond None]
       (fresh_world [(0, bonds_example)]),
     Raise (ValueError "Cashflow data not loaded"))
  /\ forall msg,
       snd (get_data plain_engine Bond (Some "INE000A01011")
              (run plain_engine [CallLoad Bond 0; CallGet Bond None]
                 (fresh_world [(0, bonds_example)])))
       <> Raise (ValueError msg).
Proof.
  split.
  - apply (C6_not_loaded_error plain_engine Cashflow
             [CallLoad Bond 0; CallGet Bond None]
             (fresh_world [(0, bonds_example)]) (Some "INE000A01011") eq_refl).
    reflexivity.
  - apply (C6_not_loaded_error plain_engine Bond
             [CallLoad Bond 0; CallGet Bond None]
             (fresh_world [(0, bonds_example)]) (Some "INE000A01011") eq_refl).
    reflexivity.
Defined.

(** * Further properties of the loader *)

Lemma getitem_setitem_ne col col' ser d :
  col <> col' -> DF.getitem col' (DF.setitem col ser d) = DF.getitem col' d.
Proof.
  intros Hne. unfold DF.getitem, DF.setitem. cbn [df_data].
  induction (df_data d) as [|[c0 s0] data IH]; simpl.
  - apply String.eqb_neq in Hne. now rewrite Hne.
  - destruct (String.eqb c0 col) eqn:E; simpl.
    + apply String.eqb_eq in E. subst c0.
      apply String.eqb_neq in Hne. now rewrite Hne.
    + destruct (String.eqb c0 col'); [reflexivity|exact IH].
Qed.

(** The conversion loop keeps the labels and the number of rows of the
    frame and the cells of every column it is not asked to convert,
    whether it ends normally or not. *)
Lemma convert_frame_shape cols f : forall d,
  DF.columns (fst (convert_frame cols f d)) = DF.columns d
  /\ df_index (fst (convert_frame cols f d)) = df_index d
  /\ forall col, ~ In col cols ->
       DF.getitem col (fst (convert_frame cols f d)) = DF.getitem col d.
Proof.
  induction cols as [|c rest IH]; intros d; cbn [convert_frame].
  - auto.
  - destruct (DF.elem c (DF.columns d)) eqn:Ec.
    + destruct (DF.getitem c d) as [ser|]; [|simpl; auto].
      destruct (f ser) as [ser'|e]; [|simpl; auto].
      destruct (IH (DF.setitem c ser' d)) as (Hc & Hi & Hg).
      rewrite Hc, Hi, (columns_setitem c ser' d Ec).
      split; [reflexivity|]. split; [reflexivity|].
      intros col Hnot. rewrite Hg by (intros H; apply Hnot; now right).
      apply getitem_setitem_ne. intros ->. apply Hnot. now left.
    + destruct (IH d) as (Hc & Hi & Hg).
      split; [exact Hc|]. split; [exact Hi|].
      intros col Hnot. apply Hg. intros H. apply Hnot. now right.
Qed.

Lemma load_frame_shape k d :
  DF.columns (fst (load_frame k d)) = DF.columns d
  /\ df_index (fst (load_frame k d)) = df_index d
  /\ forall col, ~ In col (converted_columns k) ->
       DF.getitem col (fst (load_frame k d)) = DF.getitem col d.
Proof.
  destruct k; cbn [load_frame converted_columns].
  - apply convert_frame_shape.
  - destruct (convert_frame_shape date_columns parse_dates d) as (Hc & Hi & Hg).
    destruct (convert_frame date_columns parse_dates d) as [d1 [[]|e]];
      cbn [fst] in *.
    + destruct (convert_frame_shape numeric_columns parse_numbers d1)
        as (Hc2 & Hi2 & Hg2).
      rewrite Hc2, Hi2, Hc, Hi. split; [reflexivity|]. split; [reflexivity|].
      intros col Hnot. rewrite Hg2, Hg; [reflexivity| |];
        intros H; apply Hnot; apply in_or_app; auto.
    + split; [exact Hc|]. split; [exact Hi|].
      intros col Hnot. apply Hg. intros H. apply Hnot. apply in_or_app. auto.
  - apply convert_frame_shape.
Qed.

(** X1. Whatever way a load ends, it changes no frame of the heap but
    its input, and in its input it keeps the column labels and their
    order, the number of rows, and every cell of the columns that are not
    structured-text (resp. date or numeric) columns of its kind. *)
Theorem load_keeps_shape (k : kind) (df : nat) (w : World) (d : DataFrame) :
  heap w !! df = Some d ->
  (forall r, r <> df -> heap (fst (load_data k df w)) !! r = heap w !! r)
  /\ exists d',
       heap (fst (load_data k df w)) !! df = Some d'
       /\ DF.columns d' = DF.columns d
       /\ df_index d' = df_index d
       /\ forall col, ~ In col (converted_columns k) ->
            DF.getitem col d' = DF.getitem col d.
Proof.
  intros Hd. rewrite (load_data_run k df w d Hd). unfold load_result.
  destruct (missing_cols (required_columns k) (DF.columns d)) as [|m ms].
  - destruct (load_frame_shape k d) as (Hc & Hi & Hg).
    destruct (load_frame k d) as [d' [[]|e]]; cbn [fst snd heap] in *.
    + split; [intros r Hr; now apply lookup_insert_ne|].
      exists d'. split; [apply lookup_insert_eq|auto].
    + split; [intros r Hr; now apply lookup_insert_ne|].
      exists d'. split; [apply lookup_insert_eq|auto].
  - cbn [fst heap]. split; [reflexivity|]. exists d. auto.
Qed.

Lemma load_keeps_shape_witness :
  exists d',
    heap (fst (load_data Bond 0 (fresh_world [(0, bonds_example)]))) !! 0
    = Some d'
    /\ DF.columns d' = DF.columns bonds_example
    /\ df_index d' = 2
    /\ DF.getitem "company_name" d' = Some [VStr "Tata Steel"; VNone].
Proof.
  destruct (load_keeps_shape Bond 0 (fresh_world [(0, bonds_example)])
              bonds_example eq_refl) as (_ & d' & Hd & Hc & Hi & Hg).
  exists d'. split; [exact Hd|]. split; [exact Hc|]. split; [exact Hi|].
  rewrite (Hg "company_name"); [reflexivity|].
  simpl. intuition discriminate.
Defined.

Lemma stored_table_invariant_witness :
  exists d',
    stored_table Bond (fst (load_data Bond 0 (fresh_world [(0, bonds_example)])))
    = Some d'
    /\ DF.wf d'
    /\ In "isin" (DF.columns d').
Proof.
  destruct (stored_table_invariant Bond 0 (fresh_world [(0, bonds_example)])
              bonds_example eq_refl bonds_example_wf eq_refl)
    as (d' & Hs & Hwf & Hcols).
  exists d'. split; [exact Hs|]. split; [exact Hwf|].
  apply Hcols. simpl. tauto.
Defined.

(** X3. A retrieval of any kind, with any argument and whatever its
    outcome, leaves the heap, the loader and the log as they were; asking
    again gives the same answer. *)
Theorem retrieval_changes_nothing
  (re_compile_ci : string -> option (string -> bool)) (k : kind)
  (arg : option string) (w : World) :
  fst (get_data re_compile_ci k arg w) = w
  /\ get_data re_compile_ci k arg (fst (get_data re_compile_ci k arg w))
     = get_data re_compile_ci k arg w.
Proof.
  pose proof (get_data_read_only re_compile_ci k arg w) as H.
  split; [exact H|now rewrite H].
Qed.

Lemma to_datetime_scalar_idem x :
  Datetime.to_datetime_scalar (Datetime.to_datetime_scalar x)
  = Datetime.to_datetime_scalar x.
Proof.
  destruct x; try reflexivity. simpl.
  now destruct (Datetime.strptime_dmy s) as [[[y m] d]|].
Qed.

Lemma parse_unsigned_number negative l v :
  Numeric.parse_unsigned negative l = Some v ->
  (exists z, v = VInt z) \/ (exists f, v = VFloat f).
Proof.
  unfold Numeric.parse_unsigned.
  destruct (Json.span_digits l) as [ip r1].
  destruct (match r1 with
            | "."%char :: r =>
                let (fd, r') := Json.span_digits r in (true, fd, r')
            | _ => (false, [], r1)
            end) as [[dot fd] r2].
  destruct (ip ++ fd)%list; [discriminate|].
  destruct (Numeric.parse_exp r2) as [ex|]; [|discriminate].
  destruct dot, ex; intros H; inversion H; eauto.
Qed.

Lemma parse_number_number s v :
  Numeric.parse_number s = Some v ->
  (exists z, v = VInt z) \/ (exists f, v = VFloat f).
Proof.
  unfold Numeric.parse_number.
  destruct (match Numeric.trim (Str.chars s) with
            | "-"%char :: r => (true, r)
            | "+"%char :: r => (false, r)
            | l => (false, l)
            end) as [negative l].
  destruct (Numeric.is_word "inf" l || Numeric.is_word "infinity" l).
  - intros H. inversion H. eauto.
  - apply parse_unsigned_number.
Qed.

Lemma to_numeric_scalar_idem x :
  Numeric.to_numeric_scalar (Numeric.to_numeric_scalar x)
  = Numeric.to_numeric_scalar x.
Proof.
  destruct x; try reflexivity. simpl.
  destruct (Numeric.parse_number s) as [v|] eqn:E; [|reflexivity].
  apply parse_number_number in E as [[z ->]|[f ->]]; reflexivity.
Qed.

Lemma date_not_numeric c :
  DF.elem c date_columns = true -> DF.elem c numeric_columns = false.
Proof.
  intros H. apply elem_In in H. simpl in H.
  destruct H as [<-|[<-|[]]]; reflexivity.
Qed.

Lemma frame_eq (d1 d2 : DataFrame) :
  df_index d1 = df_index d2 -> df_data d1 = df_data d2 -> d1 = d2.
Proof. destruct d1, d2. simpl. now intros -> ->. Qed.

(** The columns of a normalised cashflow table. *)
Lemma normalized_cashflow_data d :
  df_data (normalized Cashflow d)
  = map (fun cs : string * Series =>
           (fst cs,
            if DF.elem (fst cs) date_columns
            then Datetime.to_datetime (snd cs)
            else if DF.elem (fst cs) numeric_columns
                 then Numeric.to_numeric (snd cs)
                 else snd cs)) (df_data d).
Proof.
  cbn [normalized]. rewrite !converted_data, List.map_map.
  apply map_ext. intros [c ser]. cbn [fst snd parse_dates parse_numbers].
  destruct (DF.elem c date_columns) eqn:Ed.
  - now rewrite (date_not_numeric c Ed).
  - reflexivity.
Qed.

(** Normalising a normalised cashflow table changes nothing. *)
Lemma normalized_cashflow_idem d :
  normalized Cashflow (normalized Cashflow d) = normalized Cashflow d.
Proof.
  apply frame_eq; [reflexivity|].
  rewrite (normalized_cashflow_data (normalized Cashflow d)).
  rewrite normalized_cashflow_data, List.map_map.
  apply map_ext. intros [c ser]. cbn [fst snd].
  destruct (DF.elem c date_columns).
  - unfold Datetime.to_datetime. rewrite List.map_map. f_equal.
    apply map_ext. intros x. apply to_datetime_scalar_idem.
  - destruct (DF.elem c numeric_columns); [|reflexivity].
    unfold Numeric.to_numeric. rewrite List.map_map. f_equal.
    apply map_ext. intros x. apply to_numeric_scalar_idem.
Qed.

(** X4. Loading the cashflow table that is already loaded, from the same
    object, returns again and changes neither the table nor the loader:
    dates and numbers that are already converted stay as they are. *)
Theorem cashflow_reload_is_stable (df : nat) (w : World) (d : DataFrame) :
  heap w !! df = Some d -> DF.wf d ->
  snd (load_data Cashflow df w) = Return tt ->
  snd (load_data Cashflow df (fst (load_data Cashflow df w))) = Return tt
  /\ heap (fst (load_data Cashflow df (fst (load_data Cashflow df w))))
     = heap (fst (load_data Cashflow df w))
  /\ self (fst (load_data Cashflow df (fst (load_data Cashflow df w))))
     = self (fst (load_data Cashflow df w)).
Proof.
  intros Hd Hwf Hret.
  assert (Hreq : missing_cols cashflow_required_columns (DF.columns d) = []).
  { revert Hret. rewrite (load_data_run Cashflow df w d Hd). unfold load_result.
    cbn [required_columns].
    now destruct (missing_cols cashflow_required_columns (DF.columns d)). }
  rewrite (load_cashflow_returns df w d Hd Hwf Hreq). cbn [fst].
  rewrite (load_cashflow_returns df _ (normalized Cashflow d)).
  - cbn [fst snd heap self]. rewrite normalized_cashflow_idem.
    split; [reflexivity|]. split; [apply insert_insert_eq|].
    now destruct (self w).
  - cbn [heap]. apply lookup_insert_eq.
  - now apply normalized_wf.
  - now rewrite columns_normalized.
Qed.

Lemma cashflow_reload_is_stable_witness :
  heap (fst (load_data Cashflow 0
               (fst (load_data Cashflow 0 (fresh_world [(0, cashflows_example)])))))
  = heap (fst (load_data Cashflow 0 (fresh_world [(0, cashflows_example)]))).
Proof.
  apply (cashflow_reload_is_stable 0 (fresh_world [(0, cashflows_example)])
           cashflows_example eq_refl cashflows_example_wf eq_refl).
Defined.

Lemma series_apply_no_text ser :
  Forall (fun x => isinstance_str x = false) ser ->
  series_apply json_or_empty ser = Return (map (fun _ => empty_dict) ser).
Proof.
  induction 1 as [|x ser Hx _ IH]; simpl; [reflexivity|].
  rewrite IH. destruct x; try reflexivity. discriminate.
Qed.

Lemma load_returns_required k df w d :
  heap w !! df = Some d -> snd (load_data k df w) = Return tt ->
  missing_cols (required_columns k) (DF.columns d) = [].
Proof.
  intros Hd. rewrite (load_data_run k df w d Hd). unfold load_result.
  now destruct (missing_cols (required_columns k) (DF.columns d)).
Qed.

(** X5. Loading an already loaded table again from the same object does
    not keep what the first load parsed: when the structured-text columns
    of the stored table hold no text (the first load decoded every text to
    a dict, a list, a number...), the second load returns and every cell
    of every structured-text column becomes the empty dict. *)
Theorem reload_empties_parsed_cells (k : kind) (df : nat) (w : World)
  (d : DataFrame) :
  heap w !! df = Some d -> DF.wf d ->
  snd (load_data k df w) = Return tt ->
  (forall col ser, In col (json_columns k) ->
     DF.getitem col (normalized k d) = Some ser ->
     Forall (fun x => isinstance_str x = false) ser) ->
  snd (load_data k df (fst (load_data k df w))) = Return tt
  /\ forall col ser, In col (json_columns k) ->
       DF.getitem col (normalized k d) = Some ser ->
       exists d2,
         heap (fst (load_data k df (fst (load_data k df w)))) !! df = Some d2
         /\ DF.getitem col d2 = Some (map (fun _ => empty_dict) ser).
Proof.
  intros Hd Hwf Hret Hnotext.
  pose proof (load_returns_required k df w d Hd Hret) as Hreq.
  rewrite (load_return_frame k df w d Hd Hwf Hret).
  set (w1 := {| heap := <[df := normalized k d]> (heap w);
                self := with_stored k df (self w);
                logged := (logged w ++ [LogInfo (loaded_message k (df_index d))])%list |}).
  assert (Hd1 : heap w1 !! df = Some (normalized k d)) by apply lookup_insert_eq.
  pose proof (normalized_wf k d Hwf) as Hwf1.
  assert (Hconv : convertible (json_columns k) parse_json (normalized k d)).
  { intros col ser Hcol Hget. eexists. unfold parse_json.
    apply series_apply_no_text. now apply (Hnotext col). }
  assert (Hret1 : snd (load_data k df w1) = Return tt).
  { rewrite (load_data_run k df w1 _ Hd1). unfold load_result.
    rewrite columns_normalized, Hreq.
    destruct (load_frame_cases k (normalized k d) Hwf1)
      as [[_ ->]|(pre & col & post & ser & Hc & _ & Hget & Hf & _)];
      [reflexivity|].
    exfalso.
    assert (Hin : In col (json_columns k))
      by (rewrite Hc; apply in_or_app; right; now left).
    destruct (Hconv col ser Hin Hget) as [ser' Hok]. congruence. }
  split; [exact Hret1|].
  intros col ser Hcol Hget.
  rewrite (load_return_frame k df w1 _ Hd1 Hwf1 Hret1). cbn [heap].
  exists (normalized k (normalized k d)). split; [apply lookup_insert_eq|].
  destruct k; cbn [json_columns] in Hcol; try contradiction;
    cbn [normalized] in *; rewrite getitem_converted, Hget;
    (assert (DF.elem col _ = true) as -> by (apply elem_In; exact Hcol));
    unfold parse_json;
    rewrite series_apply_no_text; auto;
    [apply (Hnotext col ser Hcol Hget)|apply (Hnotext col ser Hcol Hget)].
Qed.

Lemma combined_example_wf : DF.wf combined_example.
Proof. wf_frame. Qed.

Lemma reload_empties_parsed_cells_witness :
  exists d2,
    heap (fst (load_data Bond 0
                 (fst (load_data Bond 0 (fresh_world [(0, combined_example)])))))
      !! 0 = Some d2
    /\ DF.getitem "issuer_details" d2 = Some [VDict []].
Proof.
  destruct (reload_empties_parsed_cells Bond 0
              (fresh_world [(0, combined_example)]) combined_example
              eq_refl combined_example_wf eq_refl) as [_ H].
  - intros col ser Hcol Hget. simpl in Hcol.
    destruct Hcol as [<-|[<-|[<-|[<-|[<-|[<-|[]]]]]]];
      vm_compute in Hget; inversion Hget; subst;
      repeat constructor.
  - exact (H "issuer_details" [VDict [("sector", VStr "steel")]]
             (or_introl eq_refl) eq_refl).
Defined.

(** A load reads nothing of the world but its input frame: how it ends,
    what it writes back and whether it stores depend on that frame
    alone. *)
Lemma load_data_effect k df w :
  snd (load_data k df w) = load_outcome k (heap w !! df)
  /\ heap (fst (load_data k df w))
     = match frame_after k (heap w !! df) with
       | Some d' => <[df := d']> (heap w)
       | None => heap w
       end
  /\ self (fst (load_data k df w))
     = match load_outcome k (heap w !! df) with
       | Return _ => with_stored k df (self w)
       | Raise _ => self w
       end.
Proof.
  destruct (heap w !! df) as [d|] eqn:Hd.
  - rewrite (load_data_run k df w d Hd). unfold load_result.
    cbn [load_outcome frame_after].
    destruct (missing_cols (required_columns k) (DF.columns d)) as [|m ms].
    + destruct (load_frame k d) as [d' [[]|e]]; auto.
    + auto.
  - rewrite (load_data_no_frame k df w Hd). auto.
Qed.

Lemma with_stored_comm k1 k2 df1 df2 s :
  k1 <> k2 ->
  with_stored k2 df2 (with_stored k1 df1 s)
  = with_stored k1 df1 (with_stored k2 df2 s).
Proof. destruct k1, k2; intros H; try congruence; reflexivity. Qed.

(** X6. Loads of two different kinds from two different objects do not
    depend on each other: each ends the same way whether it comes first
    or second, and the heap and the loader are the same after both in
    either order. *)
Theorem loads_of_different_kinds_commute (k1 k2 : kind) (df1 df2 : nat)
  (w : World) :
  k1 <> k2 -> df1 <> df2 ->
  snd (load_data k2 df2 (fst (load_data k1 df1 w))) = snd (load_data k2 df2 w)
  /\ snd (load_data k1 df1 (fst (load_data k2 df2 w))) = snd (load_data k1 df1 w)
  /\ heap (fst (load_data k2 df2 (fst (load_data k1 df1 w))))
     = heap (fst (load_data k1 df1 (fst (load_data k2 df2 w))))
  /\ self (fst (load_data k2 df2 (fst (load_data k1 df1 w))))
     = self (fst (load_data k1 df1 (fst (load_data k2 df2 w)))).
Proof.
  intros Hk Hdf.
  destruct (load_data_effect k1 df1 w) as (Ho1 & Hh1 & Hs1).
  destruct (load_data_effect k2 df2 w) as (Ho2 & Hh2 & Hs2).
  destruct (load_data_effect k2 df2 (fst (load_data k1 df1 w)))
    as (Ho21 & Hh21 & Hs21).
  destruct (load_data_effect k1 df1 (fst (load_data k2 df2 w)))
    as (Ho12 & Hh12 & Hs12).
  assert (E2 : heap (fst (load_data k1 df1 w)) !! df2 = heap w !! df2).
  { rewrite Hh1. destruct (frame_after k1 (heap w !! df1)); [|reflexivity].
    now apply lookup_insert_ne. }
  assert (E1 : heap (fst (load_data k2 df2 w)) !! df1 = heap w !! df1).
  { rewrite Hh2. destruct (frame_after k2 (heap w !! df2)); [|reflexivity].
    apply lookup_insert_ne. congruence. }
  rewrite E2 in Ho21, Hh21, Hs21. rewrite E1 in Ho12, Hh12, Hs12.
  split; [congruence|]. split; [congruence|]. split.
  - rewrite Hh21, Hh12, Hh1, Hh2.
    destruct (frame_after k1 (heap w !! df1)), (frame_after k2 (heap w !! df2));
      try reflexivity.
    apply insert_insert_ne. congruence.
  - rewrite Hs21, Hs12, Hs1, Hs2.
    destruct (load_outcome k1 (heap w !! df1)), (load_outcome k2 (heap w !! df2));
      try reflexivity.
    now apply with_stored_comm.
Qed.

Lemma loads_of_different_kinds_commute_witness :
  heap (fst (load_data Cashflow 1
               (fst (load_data Bond 0
                  (fresh_world [(0, bonds_example); (1, cashflows_example)])))))
  = heap (fst (load_data Bond 0
                 (fst (load_data Cashflow 1
                    (fresh_world [(0, bonds_example); (1, cashflows_example)]))))).
Proof.
  apply (loads_of_different_kinds_commute Bond Cashflow 0 1
           (fresh_world [(0, bonds_example); (1, cashflows_example)])).
  - discriminate.
  - discriminate.
Defined.

Lemma converted_empty cols f d :
  f [] = Return [] ->
  Forall (fun cs : string * Series => snd cs = []) (df_data d) ->
  converted cols f d = d.
Proof.
  intros Hf Hall. apply frame_eq; [reflexivity|].
  unfold converted. cbn [df_data].
  induction Hall as [|[c ser] data Hc _ IH]; simpl; [reflexivity|].
  rewrite IH. simpl in Hc. subst ser. rewrite Hf.
  now destruct (DF.elem c cols).
Qed.

Lemma empty_frame_columns d :
  DF.wf d -> df_index d = 0 ->
  Forall (fun cs : string * Series => snd cs = []) (df_data d).
Proof.
  intros [_ Hlen] H0. eapply List.Forall_impl; [|exact Hlen].
  intros [c ser] Hs. simpl in *. rewrite H0 in Hs. now destruct ser.
Qed.

Lemma normalized_empty k d :
  DF.wf d -> df_index d = 0 -> normalized k d = d.
Proof.
  intros Hwf H0. pose proof (empty_frame_columns d Hwf H0) as Hall.
  destruct k; cbn [normalized].
  - now apply converted_empty.
  - rewrite (converted_empty date_columns parse_dates d eq_refl Hall).
    now apply converted_empty.
  - now apply converted_empty.
Qed.

Lemma getitem_empty d col ser :
  DF.wf d -> df_index d = 0 -> DF.getitem col d = Some ser -> ser = [].
Proof.
  intros Hwf H0 Hget. pose proof (empty_frame_columns d Hwf H0) as Hall.
  unfold DF.getitem in Hget.
  induction Hall as [|[c s] data Hc _ IH]; simpl in *; [discriminate|].
  destruct (String.eqb c col); [congruence|now apply IH].
Qed.

Lemma required_has_isin k :
  k <> Company -> In "isin" (required_columns k).
Proof. destruct k; intros H; try congruence; simpl; tauto. Qed.

Lemma required_present k d col :
  missing_cols (required_columns k) (DF.columns d) = [] ->
  In col (required_columns k) -> In col (DF.columns d).
Proof.
  intros Hm Hcol.
  destruct (in_dec string_dec col (DF.columns d)) as [Hin|Hnot]; [exact Hin|].
  assert (H : In col (missing_cols (required_columns k) (DF.columns d)))
    by (apply missing_cols_spec; auto).
  rewrite Hm in H. contradiction.
Qed.

(** X7. A table with the required columns and no rows loads, for every
    kind: nothing can be malformed in it, the load returns, stores the
    frame exactly as it is and logs a count of zero; a retrieval by [isin]
    then returns a frame without rows instead of raising. *)
Theorem empty_table_loads (re_compile_ci : string -> option (string -> bool))
  (k : kind) (df : nat) (w : World) (d : DataFrame) :
  heap w !! df = Some d -> DF.wf d -> df_index d = 0 ->
  missing_cols (required_columns k) (DF.columns d) = [] ->
  load_data k df w
  = ({| heap := <[df := d]> (heap w);
        self := with_stored k df (self w);
        logged := (logged w ++ [LogInfo (loaded_message k 0)])%list |},
     Return tt)
  /\ (k <> Company -> forall isin, isin <> "" ->
      exists d',
        get_data re_compile_ci k (Some isin) (fst (load_data k df w))
        = (fst (load_data k df w), Return (Filtered d'))
        /\ df_index d' = 0 /\ DF.rows d' = []
        /\ DF.columns d' = DF.columns d).
Proof.
  intros Hd Hwf H0 Hreq.
  assert (Hload : load_data k df w
                  = ({| heap := <[df := d]> (heap w);
                        self := with_stored k df (self w);
                        logged := (logged w ++ [LogInfo (loaded_message k 0)])%list |},
                     Return tt)).
  { rewrite (load_data_run k df w d Hd). unfold load_result. rewrite Hreq.
    destruct (load_frame_cases k d Hwf)
      as [[_ ->]|(pre & col & post & ser & _ & _ & Hget & Hf & _)].
    - now rewrite (normalized_empty k d Hwf H0), H0.
    - exfalso. rewrite (getitem_empty d col ser Hwf H0 Hget) in Hf.
      discriminate. }
  split; [exact Hload|].
  intros Hk isin Hne. rewrite Hload. cbn [fst].
  set (w1 := {| heap := <[df := d]> (heap w);
                self := with_stored k df (self w);
                logged := (logged w ++ [LogInfo (loaded_message k 0)])%list |}).
  assert (Hd1 : heap w1 !! df = Some d) by apply lookup_insert_eq.
  assert (Hisin : In "isin" (DF.columns d))
    by (apply (required_present k); [exact Hreq|now apply required_has_isin]).
  destruct (filter_isin_rows isin w1 df d Hd1 Hwf Hisin)
    as (d' & Hrun & Hrows & Hcols & Hidx).
  assert (Hnil : DF.rows d = []) by (unfold DF.rows; now rewrite H0).
  exists d'. rewrite Hnil in Hrows, Hidx.
  assert (Hget : get_data re_compile_ci k (Some isin) w1
                 = filter_isin df isin w1).
  { destruct k; try congruence; cbn [get_data];
      unfold get_bond_details, get_cashflow_details;
      (erewrite bind_return by (unfold get_self; reflexivity));
      cbn [w1 self with_stored bond_details cashflow_details];
      now rewrite (truthy_nonempty isin Hne). }
  rewrite Hget. auto.
Qed.

Lemma bonds_empty_wf : DF.wf bonds_empty.
Proof. wf_frame. Qed.

Lemma empty_table_loads_witness :
  snd (load_data Bond 0 (fresh_world [(0, bonds_empty)])) = Return tt
  /\ logged (fst (load_data Bond 0 (fresh_world [(0, bonds_empty)])))
     = [LogInfo "Loaded 0 bond records"].
Proof.
  destruct (empty_table_loads plain_engine Bond 0
              (fresh_world [(0, bonds_empty)]) bonds_empty
              eq_refl bonds_empty_wf eq_refl eq_refl) as [H _].
  rewrite H. split; reflexivity.
Defined.

Lemma isin_not_converted k : ~ In "isin" (converted_columns k).
Proof. destruct k; simpl; intuition discriminate. Qed.

Lemma getitem_normalized_other k d col :
  DF.wf d -> ~ In col (converted_columns k) ->
  DF.getitem col (normalized k d) = DF.getitem col d.
Proof.
  intros Hwf Hnot.
  assert (Hn : forall cols, ~ In col cols -> DF.elem col cols = false)
    by (intros cols; apply elem_false).
  destruct k; cbn [normalized converted_columns] in *;
    rewrite ?getitem_converted;
    destruct (DF.getitem col d) as [ser|]; try reflexivity.
  - now rewrite Hn.
  - rewrite !Hn; [reflexivity| |];
      intros H; apply Hnot; apply in_or_app; auto.
  - now rewrite Hn.
Qed.

(** X8. Load and retrieval compose.  After a load of a well-formed frame
    has returned, the retrieval without argument returns the very object
    that was loaded, which is the normalised input; and for bonds and
    cashflows the retrieval by a non-empty [isin] returns a frame with as
    many rows as the [isin] column of the input had cells equal to the
    argument, those rows being the matching rows of the normalised
    input. *)
Theorem load_then_retrieve (re_compile_ci : string -> option (string -> bool))
  (k : kind) (df : nat) (w : World) (d : DataFrame) :
  heap w !! df = Some d -> DF.wf d ->
  snd (load_data k df w) = Return tt ->
  get_data re_compile_ci k None (fst (load_data k df w))
  = (fst (load_data k df w), Return (Stored df))
  /\ retrieved_frame (fst (load_data k df w)) (Stored df)
     = Some (normalized k d)
  /\ (k <> Company -> forall isin, isin <> "" ->
      exists d' ser,
        get_data re_compile_ci k (Some isin) (fst (load_data k df w))
        = (fst (load_data k df w), Return (Filtered d'))
        /\ DF.getitem "isin" d = Some ser
        /\ df_index d' = length (List.filter (eq_str isin) ser)
        /\ DF.rows d'
           = List.filter (isin_is isin) (DF.rows (normalized k d))).
Proof.
  intros Hd Hwf Hret.
  pose proof (load_returns_required k df w d Hd Hret) as Hreq.
  rewrite (load_return_frame k df w d Hd Hwf Hret).
  set (w1 := {| heap := <[df := normalized k d]> (heap w);
                self := with_stored k df (self w);
                logged := (logged w ++ [LogInfo (loaded_message k (df_index d))])%list |}).
  assert (Hd1 : heap w1 !! df = Some (normalized k d)) by apply lookup_insert_eq.
  assert (Hs1 : stored k (self w1) = Some df).
  { cbn [w1 self]. rewrite stored_with_stored. now rewrite decide_True. }
  split; [|split].
  - destruct k; cbn [get_data stored] in *;
      unfold get_bond_details, get_cashflow_details, get_company_insights;
      (erewrite bind_return by (unfold get_self; reflexivity));
      rewrite Hs1; reflexivity.
  - exact Hd1.
  - intros Hk isin Hne.
    assert (Hisin : In "isin" (DF.columns d))
      by (apply (required_present k); [exact Hreq|now apply required_has_isin]).
    apply elem_In, getitem_elem in Hisin as [ser Hget].
    assert (Hget1 : DF.getitem "isin" (normalized k d) = Some ser).
    { rewrite getitem_normalized_other; [exact Hget|exact Hwf|].
      apply isin_not_converted. }
    pose proof (normalized_wf k d Hwf) as Hwf1.
    destruct (filter_rows_by_column (normalized k d) "isin" ser
                (eq_str isin) (isin_is isin) Hwf1 Hget1) as (Hrows & _ & _).
    { intros x r. apply isin_is_row. }
    exists (DF.filter_rows (map (eq_str isin) ser) (normalized k d)), ser.
    split; [|split; [exact Hget|split; [|exact Hrows]]].
    + assert (Hrun : get_data re_compile_ci k (Some isin) w1
                     = filter_isin df isin w1).
      { destruct k; try congruence; cbn [get_data stored] in *;
          unfold get_bond_details, get_cashflow_details;
          (erewrite bind_return by (unfold get_self; reflexivity));
          rewrite Hs1; now rewrite (truthy_nonempty isin Hne). }
      now rewrite Hrun, filter_isin_run, Hd1, Hget1.
    + cbn [DF.filter_rows df_index]. unfold DF.count_true.
      clear. induction ser as [|x ser IH]; simpl; [reflexivity|].
      destruct (eq_str isin x); simpl; now rewrite IH.
Qed.

Lemma load_then_retrieve_witness :
  exists d',
    get_data plain_engine Cashflow (Some "INE000A01011")
      (fst (load_data Cashflow 0 (fresh_world [(0, cashflows_example)])))
    = (fst (load_data Cashflow 0 (fresh_world [(0, cashflows_example)])),
       Return (Filtered d'))
    /\ df_index d' = 2.
Proof.
  destruct (load_then_retrieve plain_engine Cashflow 0
              (fresh_world [(0, cashflows_example)]) cashflows_example
              eq_refl cashflows_example_wf eq_refl) as (_ & _ & H).
  destruct (H ltac:(discriminate) "INE000A01011" ltac:(discriminate))
    as (d' & ser & Hget & Hser & Hidx & _).
  exists d'. split; [exact Hget|].
  rewrite Hidx. inversion Hser; subst ser. reflexivity.
Defined.

Lemma digit_of_nat_val k :
  k < 10 ->
  Str.is_digit (ascii_of_nat (48 + k)) = true
  /\ Str.digit_val (ascii_of_nat (48 + k)) = Z.of_nat k.
Proof.
  intros H. do 10 (destruct k as [|k]; [split; reflexivity|]). lia.
Qed.

Lemma digits_val_snoc ds c :
  Json.digits_val (ds ++ [c]) = (Json.digits_val ds * 10 + Str.digit_val c)%Z.
Proof. unfold Json.digits_val. now rewrite fold_left_app. Qed.

(** The digits written for a number denote that number. *)
Lemma digits_fuel_spec fuel : forall n acc,
  n < fuel ->
  exists ds,
    Str.digits_fuel fuel n acc = (ds ++ acc)%list
    /\ ds <> [] /\ forallb Str.is_digit ds = true
    /\ Json.digits_val ds = Z.of_nat n.
Proof.
  induction fuel as [|fuel IH]; intros n acc Hn; [lia|].
  cbn [Str.digits_fuel].
  assert (Hm : n mod 10 < 10) by (apply Nat.mod_upper_bound; lia).
  destruct (digit_of_nat_val (n mod 10) Hm) as [Hd Hv].
  remember (ascii_of_nat (48 + n mod 10)) as c eqn:Ec. clear Ec.
  destruct (n <? 10)%nat eqn:E.
  - apply Nat.ltb_lt in E. exists [c].
    split; [reflexivity|]. split; [discriminate|].
    split; [cbn [forallb]; now rewrite Hd|].
    unfold Json.digits_val. cbn [fold_left]. rewrite Hv.
    rewrite (Nat.mod_small n 10 E). lia.
  - apply Nat.ltb_ge in E.
    assert (Hdiv : n / 10 < fuel).
    { assert (n / 10 < n) by (apply Nat.div_lt; lia). lia. }
    destruct (IH (n / 10) (c :: acc) Hdiv) as (ds & Heq & Hne & Hall & Hval).
    exists (ds ++ [c])%list.
    split; [rewrite Heq, <- app_assoc; reflexivity|].
    split; [now destruct ds|].
    split; [rewrite forallb_app, Hall; cbn [forallb]; now rewrite Hd|].
    rewrite digits_val_snoc, Hval, Hv.
    pose proof (Nat.div_mod_eq n 10) as Hdm.
    rewrite Hdm at 3. rewrite Nat2Z.inj_add, Nat2Z.inj_mul. lia.
Qed.

(** X9. A load writes exactly one record to the log, after the records
    that were there: on return the information record with the number of
    rows of the input frame, otherwise the error record with the
    exception that it then raises.  The number in the record is written
    in decimal digits that denote the number of rows. *)
Theorem load_logs_one_record (k : kind) (df : nat) (w : World) :
  (exists record,
     logged (fst (load_data k df w)) = (logged w ++ [record])%list
     /\ match snd (load_data k df w) with
        | Return _ =>
            exists d, heap w !! df = Some d
                      /\ record = LogInfo ("Loaded " ++ Str.of_nat (df_index d)
                                           ++ " " ++ kind_name k ++ " records")
        | Raise e => record = LogError (error_prefix k) e
        end)
  /\ forall n, forallb Str.is_digit (Str.chars (Str.of_nat n)) = true
               /\ Json.digits_val (Str.chars (Str.of_nat n)) = Z.of_nat n.
Proof.
  split.
  - destruct (heap w !! df) as [d|] eqn:Hd.
    + rewrite (load_data_run k df w d Hd). unfold load_result.
      destruct (missing_cols (required_columns k) (DF.columns d)) as [|m ms].
      * destruct (load_frame_shape k d) as (_ & Hi & _).
        destruct (load_frame k d) as [d' [[]|e]]; cbn [fst snd logged] in *.
        -- eexists. split; [reflexivity|]. exists d.
           split; [reflexivity|]. unfold loaded_message. now rewrite Hi.
        -- eexists. split; reflexivity.
      * cbn [fst snd logged]. eexists. split; reflexivity.
    + rewrite (load_data_no_frame k df w Hd). cbn [fst snd logged].
      eexists. split; reflexivity.
  - intros n. unfold Str.of_nat. rewrite chars_of_chars.
    destruct (digits_fuel_spec (S n) n [] ltac:(lia))
      as (ds & Heq & _ & Hall & Hval).
    rewrite Heq, app_nil_r. auto.
Qed.

(** X10. When the stored table has lost the key column of its kind
    ([isin], resp. [company_name]; a load requires it, but the caller can
    drop it from the stored object), a retrieval with a non-empty
    argument raises [KeyError] for that column and changes nothing, while
    the retrieval without argument, or with the empty text, still returns
    the stored table. *)
Theorem retrieval_without_key_column
  (re_compile_ci : string -> option (string -> bool)) (k : kind) (df : nat)
  (w : World) (d : DataFrame) (arg : string) :
  stored k (self w) = Some df -> heap w !! df = Some d ->
  ~ In (key_column k) (DF.columns d) -> arg <> "" ->
  get_data re_compile_ci k (Some arg) w = (w, Raise (KeyError (key_column k)))
  /\ get_data re_compile_ci k None w = (w, Return (Stored df))
  /\ get_data re_compile_ci k (Some "") w = (w, Return (Stored df)).
Proof.
  intros Hs Hd Hnot Hne.
  apply elem_false in Hnot. apply getitem_absent in Hnot.
  destruct k; cbn [get_data stored key_column] in *;
    unfold get_bond_details, get_cashflow_details, get_company_insights;
    (erewrite !bind_return by (unfold get_self; reflexivity));
    rewrite Hs, (truthy_nonempty arg Hne);
    rewrite ?filter_isin_run, ?contains_run, Hd, Hnot; auto.
Qed.

Lemma retrieval_without_key_column_witness :
  let w := {| heap := {[ 0 := cashflows_without_isin ]};
              self := with_stored Cashflow 0 init;
              logged := [] |} in
  get_data plain_engine Cashflow (Some "INE000A01011") w
  = (w, Raise (KeyError "isin")).
Proof.
  apply (retrieval_without_key_column plain_engine Cashflow 0
           {| heap := {[ 0 := cashflows_without_isin ]};
              self := with_stored Cashflow 0 init;
              logged := [] |} cashflows_without_isin "INE000A01011").
  - reflexivity.
  - reflexivity.
  - simpl. intuition discriminate.
  - discriminate.
Defined.

(** The outcome of a retrieval depends on the attribute of its kind and
    on the frame that attribute refers to, and on nothing else. *)
Lemma get_data_depends re_compile_ci k arg w1 w2 :
  stored k (self w1) = stored k (self w2) ->
  (forall r, stored k (self w1) = Some r -> heap w1 !! r = heap w2 !! r) ->
  snd (get_data re_compile_ci k arg w1) = snd (get_data re_compile_ci k arg w2).
Proof.
  intros Hs Hh.
  destruct (stored k (self w2)) as [r|] eqn:E2.
  - specialize (Hh r Hs).
    destruct k; cbn [get_data stored] in *;
      unfold get_bond_details, get_cashflow_details, get_company_insights;
      (erewrite !bind_return by (unfold get_self; reflexivity));
      rewrite Hs, E2; (destruct arg as [s|]; [|reflexivity]);
      (destruct (Str.truthy s); [|reflexivity]);
      rewrite ?filter_isin_run, ?contains_run, Hh; reflexivity.
  - rewrite (get_data_unloaded re_compile_ci k arg w1 Hs).
    now rewrite (get_data_unloaded re_compile_ci k arg w2 E2).
Qed.

(** X11. A load does not disturb the retrievals of a table it does not
    touch: when the object being loaded is not the stored table of kind
    [k'], and the load is of another kind or raises, every retrieval of
    kind [k'] has the same outcome after the load as before it. *)
Theorem load_keeps_other_retrievals
  (re_compile_ci : string -> option (string -> bool)) (k k' : kind)
  (df : nat) (w : World) (arg : option string) :
  stored k' (self w) <> Some df ->
  (k <> k' \/ exists e, snd (load_data k df w) = Raise e) ->
  snd (get_data re_compile_ci k' arg (fst (load_data k df w)))
  = snd (get_data re_compile_ci k' arg w).
Proof.
  intros Hne Hcase.
  destruct (load_data_effect k df w) as (Ho & Hh & Hs).
  apply get_data_depends.
  - rewrite Hs. destruct (load_outcome k (heap w !! df)) as [[]|e] eqn:E;
      [|reflexivity].
    rewrite stored_with_stored.
    destruct Hcase as [Hk|[e He]].
    + rewrite decide_False by congruence. reflexivity.
    + rewrite Ho in He. discriminate.
  - intros r Hr. rewrite Hh.
    destruct (frame_after k (heap w !! df)); [|reflexivity].
    apply lookup_insert_ne. intros Heq. subst r. apply Hne.
    revert Hr. rewrite Hs.
    destruct (load_outcome k (heap w !! df)) as [[]|e] eqn:E; [|auto].
    rewrite stored_with_stored.
    destruct Hcase as [Hk|[e He]].
    + rewrite decide_False by congruence. auto.
    + rewrite Ho in He. discriminate.
Qed.

Lemma load_keeps_other_retrievals_witness :
  snd (get_data plain_engine Bond (Some "INE000A01011")
         (fst (load_data Cashflow 1
                 (fst (load_data Bond 0
                    (fresh_world [(0, bonds_example);
                                  (1, cashflows_incomplete)]))))))
  = snd (get_data plain_engine Bond (Some "INE000A01011")
           (fst (load_data Bond 0
                   (fresh_world [(0, bonds_example);
                                 (1, cashflows_incomplete)])))).
Proof.
  apply (load_keeps_other_retrievals plain_engine Cashflow Bond 1
           (fst (load_data Bond 0
                   (fresh_world [(0, bonds_example); (1, cashflows_incomplete)])))
           (Some "INE000A01011")).
  - vm_compute. discriminate.
  - left. discriminate.
Defined.
